(** * so-vits-svc-fork: the Colab notebook and the [svc] command line

    The repository excerpt consists of [notebooks/so-vits-svc-fork-4.0.ipynb]
    and [CHANGELOG.md].  The notebook is the only executable artefact: a
    list of cells, each a list of Python statements, IPython magics and
    [!]-prefixed shell commands.  This development embeds

    - the notebook itself, cell by cell ([notebook]);
    - the part of the IPython kernel the notebook relies on: the filling in
      of [{NAME}] in shell lines and f-strings, word splitting, imports,
      [random.randint] and [str] ([Kernel]);
    - a file tree ([Fs]) and the shell commands the notebook issues on it
      ([Shell]), with the processes a shell starts for a line ([Proc]);
      the [svc] subcommands are not part of the excerpt and are modelled
      from the specification ([Svc]);
    - what the notebook asks of [svc]: subcommands, arguments, order ([Nb]). *)

From Stdlib Require Import ZArith Ascii DecimalString DecimalNat DecimalZ Sorted.
From stdpp Require Import gmap strings list fin_maps.

Local Open Scope Z_scope.

(** ** Strings and paths *)

Module Str.

Definition dquote : ascii := "034"%char.
Definition q : string := String dquote "".

(** [strip_suffix suf s] is [Some pre] exactly when [s = pre +:+ suf]. *)
Fixpoint strip_suffix (suf s : string) : option string :=
  if String.eqb s suf then Some ""
  else match s with
       | EmptyString => None
       | String c s' => String c <$> strip_suffix suf s'
       end.

Definition ends_with (suf s : string) : bool :=
  bool_decide (is_Some (strip_suffix suf s)).

Fixpoint strip_prefix (pre s : string) : option string :=
  match pre, s with
  | EmptyString, _ => Some s
  | String a pre', String b s' =>
      if Ascii.eqb a b then strip_prefix pre' s' else None
  | String _ _, EmptyString => None
  end.

Definition starts_with (pre s : string) : bool :=
  bool_decide (is_Some (strip_prefix pre s)).

(** Python's [str] on a non-negative [int]: its decimal numeral. *)
Definition of_nat (n : nat) : string :=
  NilEmpty.string_of_uint (Nat.to_uint n).

(** Python's [str] on an [int]. *)
Definition of_Z (z : Z) : string :=
  NilEmpty.string_of_int (Z.to_int z).

(** The last component of a [/]-separated path or URL. *)
Fixpoint basename_go (cur s : string) : string :=
  match s with
  | EmptyString => cur
  | String c s' =>
      if Ascii.eqb c "/" then basename_go "" s'
      else basename_go (cur +:+ String c "") s'
  end.

Definition basename (s : string) : string := basename_go "" s.

Fixpoint has_slash (s : string) : bool :=
  match s with
  | EmptyString => false
  | String c s' => Ascii.eqb c "/" || has_slash s'
  end.

(** A path without its trailing slashes ([logs/44k/] names [logs/44k]). *)
Fixpoint normalize (s : string) : string :=
  match s with
  | EmptyString => ""
  | String c s' =>
      match normalize s' with
      | EmptyString => if Ascii.eqb c "/" then "" else String c ""
      | r => String c r
      end
  end.

(** The directory a path lies in: the path without its last component
    and the slash before it ([""] is the root). *)
Fixpoint dirname (s : string) : string :=
  match s with
  | EmptyString => ""
  | String c s' => if has_slash s' then String c (dirname s') else ""
  end.



(** [under dir p]: [p] lies strictly below directory [dir]. *)
Definition under (dir p : string) : bool :=
  starts_with (normalize dir +:+ "/") p.

End Str.

(** ** The notebook *)

(** A statement of a code cell.  Shell lines and magics keep their text as
    written; the few Python statements the notebook uses are constructors:

    - [Comment text] is [# text], also Colab's [#@title] and [#@markdown];
    - [Shell cmd] is [!cmd] and [Magic cmd] is [%cmd];
    - [Param x v] is the form field [x = "v" #@param {...}];
    - [AssignRandint x a b] is [x = str(random.randint(a, b))];
    - [Import m] is [import m], for a module [m] that is no submodule,
      and [FromImport m names] is [from m import names];
    - [DriveMount m] is [drive.mount('m')];
    - [DisplayAudio f autoplay] is [display(Audio(f"f"))], with
      [autoplay=True] or without;
    - [IfEq x v s1 s2] is [if x == "v": s1] followed by [else: s2], both
      bodies being one statement.

    The commented-out [mv] of the download cell names a corpus directory in
    Japanese script; that comment is kept with the directory abbreviated. *)
Inductive stmt :=
| Comment (text : string)
| Blank
| Shell (cmd : string)
| Magic (cmd : string)
| Param (x v : string)
| AssignRandint (x : string) (a b : Z)
| Import (module : string)
| FromImport (module : string) (names : list string)
| DriveMount (mountpoint : string)
| DisplayAudio (fstring : string) (autoplay : bool)
| IfEq (x v : string) (then_ else_ : stmt).

Inductive cell :=
| Markdown (source : list string)
| Code (source : list stmt).

Definition model_dir : string := "drive/MyDrive/so-vits-svc-fork/logs/44k".

Definition notebook : list cell :=
  [ Markdown
      [ "## Before training"; "";
        "This program saves the last 3 generations of models to Google Drive. Since 1 generation of models is >1GB, you should have at least 3GB of free space in Google Drive. If you do not have such free space, it is recommended to create another Google Account.";
        "";
        "Training requires >10GB VRAM. (T4 should be enough) Inference does not require such a lot of VRAM." ];
    Markdown [ "## Installation" ];
    Code [ Comment "@title Check GPU";
           Shell "nvidia-smi" ];
    Code [ Comment "@title Install dependencies";
           Shell "python -m pip install -U pip wheel";
           Magic "pip install -U ipython ";
           Blank;
           Comment "@markdown Branch (for development)";
           Param "BRANCH" "none";
           IfEq "BRANCH" "none"
             (Magic "pip install -U so-vits-svc-fork")
             (Magic "pip install -U git+https://github.com/34j/so-vits-svc-fork.git@{BRANCH}") ];
    Code [ Comment "@title Mount Google Drive";
           FromImport "google.colab" ["drive"];
           DriveMount "/content/drive" ];
    Markdown [ "## Training" ];
    Code [ Comment "@title Make dataset directory";
           Magic "cd ./content" ];
    Code [ Shell ("mkdir -p " +:+ Str.q +:+ "dataset_raw/44k" +:+ Str.q) ];
    Code [ Comment ("!rm -r " +:+ Str.q +:+ "dataset_raw/44k" +:+ Str.q);
           Comment ("!rm -r " +:+ Str.q +:+ "dataset/44k" +:+ Str.q) ];
    Code [ Comment "@title Copy your dataset";
           Param "DATASET_NAME" "kiritan";
           Shell ("cp -R /content/drive/MyDrive/so-vits-svc-fork/dataset/{DATASET_NAME}/ -t "
                  +:+ Str.q +:+ "dataset_raw/44k/" +:+ Str.q) ];
    Code [ Comment "@title Download dataset (Tsukuyomi-chan JVS)";
           Comment "@markdown Make sure you agree to the license when using this dataset.";
           Comment " !wget https://tyc.rei-yumesaki.net/files/sozai-tyc-corpus1.zip";
           Comment " !unzip sozai-tyc-corpus1.zip";
           Comment (" !mv " +:+ Str.q +:+ "/content/(corpus)/WAV" +:+ Str.q +:+ " "
                    +:+ Str.q +:+ "dataset_raw/44k/tsukuyomi" +:+ Str.q) ];
    Code [ Comment "@title Automatic preprocessing";
           Shell "svc pre-resample" ];
    Code [ Shell "svc pre-config" ];
    Code [ Comment "@title Copy configs file";
           Shell "cp configs/44k/config.json drive/MyDrive/so-vits-svc-fork" ];
    Code [ Shell "svc pre-hubert" ];
    Code [ Comment "@title Train";
           Shell "svc train --model-path drive/MyDrive/so-vits-svc-fork/logs/44k" ];
    Markdown [ "## Inference" ];
    Code [ Comment "@title Get the author's voice as a source";
           Import "random";
           AssignRandint "NAME" 1 100;
           Shell ("wget -N " +:+ Str.q
                  +:+ "https://github.com/34j/34j/raw/main/jvs-parallel100/{NAME}.wav"
                  +:+ Str.q);
           FromImport "IPython.display" ["Audio"; "display"];
           DisplayAudio "{NAME}.wav" false ];
    Code [ Comment "@title Use trained model";
           Shell "svc infer {NAME}.wav -m drive/MyDrive/so-vits-svc-fork/logs/44k/ -c drive/MyDrive/so-vits-svc-fork/logs/44k/config.json";
           DisplayAudio "{NAME}.out.wav" true ];
    Markdown [ "### Pretrained models" ];
    Code [ Comment "@title https://huggingface.co/TachibanaKimika/so-vits-svc-4.0-models/tree/main";
           Shell ("wget -N " +:+ Str.q
                  +:+ "https://huggingface.co/TachibanaKimika/so-vits-svc-4.0-models/resolve/main/riri/G_riri_220.pth"
                  +:+ Str.q);
           Shell ("wget -N " +:+ Str.q
                  +:+ "https://huggingface.co/TachibanaKimika/so-vits-svc-4.0-models/resolve/main/riri/config.json"
                  +:+ Str.q) ];
    Code [ Shell "svc infer {NAME}.wav -c config.json -m G_riri_220.pth";
           DisplayAudio "{NAME}.out.wav" true ];
    Code [ Comment "@title https://huggingface.co/therealvul/so-vits-svc-4.0/tree/main";
           Shell ("wget -N " +:+ Str.q
                  +:+ "https://huggingface.co/therealvul/so-vits-svc-4.0/resolve/main/Pinkie%20(speaking%20sep)/G_166400.pth"
                  +:+ Str.q);
           Shell ("wget -N " +:+ Str.q
                  +:+ "https://huggingface.co/therealvul/so-vits-svc-4.0/resolve/main/Pinkie%20(speaking%20sep)/config.json"
                  +:+ Str.q) ];
    Code [ Blank;
           Shell ("svc infer {NAME}.wav --speaker " +:+ Str.q +:+ "Pinkie {neutral}" +:+ Str.q
                  +:+ " -c config.json -m G_166400.pth");
           DisplayAudio "{NAME}.out.wav" true ] ].

(** ** The kernel: what the notebook's Python does *)

Module Kernel.

(** What a statement makes the kernel do outside itself. *)
Inductive action :=
| Sh (argv : list string)
    (** a shell command, after expansion and word splitting *)
| LineMagic (argv : list string)
| Mount (mountpoint : string)
| Play (path : string) (autoplay : bool).

(** Python variables of the session (all of them hold strings) and the
    entropy [random] draws from, one number per call.  [out] lists what
    the statements made the kernel do, [system] the lines it handed to a
    shell, in order: the line of each [!cmd], and the call of pip that
    [%pip] makes through the same function. *)
Record state := {
  env : gmap string string;
  entropy : list Z;
  out : list action;
  system : list string
}.

Definition init (entropy : list Z) : state :=
  {| env := ∅; entropy := entropy; out := []; system := [] |}.

(** [random.randint(a, b)] is [a + randbelow(b - a + 1)]: both ends are
    included.  [r] is the entropy the generator consumes. *)
Definition randbelow (r n : Z) : Z := r mod n.
Definition randint (a b r : Z) : Z := a + randbelow r (b - a + 1).

(** Filling in the fields [{x}] of a line from the session's variables,
    as [str.format] does.  [None] is the exception a field raises when its
    name is not defined, or the braces do not match.  (The escapes [{{]
    and [}}] and the [$x] form are not needed for this notebook.) *)
Fixpoint format_go (e : gmap string string) (pending : option string)
    (s : string) : option string :=
  match s with
  | EmptyString =>
      match pending with None => Some "" | Some _ => None end
  | String c s' =>
      match pending with
      | None =>
          if Ascii.eqb c "{" then format_go e (Some "") s'
          else if Ascii.eqb c "}" then None
          else String c <$> format_go e None s'
      | Some n =>
          if Ascii.eqb c "}"
          then v ← e !! n; r ← format_go e None s'; Some (v +:+ r)
          else format_go e (Some (n +:+ String c "")) s'
      end
  end.

(** An f-string: [None] is a [NameError]. *)
Definition fstring (e : gmap string string) (s : string) : option string :=
  format_go e None s.

(** IPython's [var_expand] on the line of a [!] command or a magic: when
    the formatter fails, the line goes on to the shell as it was written,
    with none of its fields filled in. *)
Definition expand (e : gmap string string) (s : string) : string :=
  default s (format_go e None s).

(** Word splitting of a command line: blanks separate words, double
    quotes group. *)
Fixpoint words_go (cur : option string) (quoted : bool) (s : string)
    : list string :=
  match s with
  | EmptyString => option_list cur
  | String c s' =>
      if Ascii.eqb c Str.dquote
      then words_go (Some (default "" cur)) (negb quoted) s'
      else if Ascii.eqb c " " && negb quoted
      then option_list cur ++ words_go None false s'
      else words_go (Some (default "" cur +:+ String c "")) quoted s'
  end.

Definition words (s : string) : list string := words_go None false s.

Definition emit (a : action) (st : state) : state :=
  {| env := env st; entropy := entropy st; out := out st ++ [a];
     system := system st |}.

Definition hand (line : string) (st : state) : state :=
  {| env := env st; entropy := entropy st; out := out st;
     system := system st ++ [line] |}.

Definition assign (x v : string) (st : state) : state :=
  {| env := <[x := v]> (env st); entropy := entropy st; out := out st;
     system := system st |}.

(** What an import binds a name to.  The session holds text only, so a
    module and a member of a module are stood for by a description; the
    text Python prints for them depends on the installation. *)
Definition module (m : string) : string := "<module '" +:+ m +:+ "'>".
Definition member (m x : string) : string :=
  "<'" +:+ x +:+ "' of module '" +:+ m +:+ "'>".

Definition has (st : state) (x v : string) : bool :=
  bool_decide (env st !! x = Some v).

(** [%pip args] runs [sys.executable -m pip args] through the function
    that runs [!] lines, which fills in the fields once more; [python]
    stands for the interpreter's path.  The other magics of the notebook
    start no process. *)
Definition pip_line (e : gmap string string) (line : string)
    : option string :=
  match Str.strip_prefix "pip" line with
  | Some rest =>
      if bool_decide (rest = "") || Str.starts_with " " rest
      then Some (expand e ("python -m pip" +:+ rest))
      else None
  | None => None
  end.

(** One statement that does not raise. *)
Fixpoint exec (s : stmt) (st : state) : state :=
  match s with
  | Comment _ | Blank => st
  | Shell cmd =>
      let line := expand (env st) cmd in
      hand line (emit (Sh (words line)) st)
  | Magic cmd =>
      let line := expand (env st) cmd in
      let st' := emit (LineMagic (words line)) st in
      match pip_line (env st) line with
      | Some l => hand l st'
      | None => st'
      end
  | Param x v => assign x v st
  | AssignRandint x a b =>
      let r := hd 0 (entropy st) in
      assign x (Str.of_Z (randint a b r))
        {| env := env st; entropy := tl (entropy st); out := out st;
           system := system st |}
  | Import m => assign m (module m) st
  | FromImport m names =>
      foldl (fun st x => assign x (member m x) st) st names
  | DriveMount m => emit (Mount m) st
  | DisplayAudio f autoplay =>
      match fstring (env st) f with
      | Some p => emit (Play p autoplay) st
      | None => st
      end
  | IfEq x v t e =>
      if bool_decide (env st !! x = Some v) then exec t st else exec e st
  end.

(** The statements that raise: a name that is used and is not bound
    ([NameError]), be it a variable of an f-string or of a comparison, or
    one of the names the notebook imports.  The session knows an object
    by the import that bound it: [random], [drive], [display] and [Audio]
    work when they hold what the notebook's imports bind them to, and a
    name bound in another way is taken not to.  A shell command that fails
    does not raise, nor does a magic. *)
Fixpoint raises (s : stmt) (st : state) : bool :=
  match s with
  | AssignRandint _ _ _ => negb (has st "random" (module "random"))
  | DriveMount _ => negb (has st "drive" (member "google.colab" "drive"))
  | DisplayAudio f _ =>
      negb (has st "display" (member "IPython.display" "display")
            && has st "Audio" (member "IPython.display" "Audio")
            && bool_decide (is_Some (fstring (env st) f)))
  | IfEq x v t e =>
      match env st !! x with
      | None => true
      | Some w => if bool_decide (w = v) then raises t st else raises e st
      end
  | _ => false
  end.

(** The statements of a cell, up to the first that raises; the flag tells
    whether one did. *)
Fixpoint exec_stmts (l : list stmt) (st : state) : state * bool :=
  match l with
  | [] => (st, false)
  | s :: l' => if raises s st then (st, true) else exec_stmts l' (exec s st)
  end.

Definition run_cell (c : cell) (st : state) : state * bool :=
  match c with
  | Markdown _ => (st, false)
  | Code src => exec_stmts src st
  end.

Definition exec_cell (c : cell) (st : state) : state :=
  (run_cell c st).1.

(** Run All: the cells from top to bottom, up to the first that raises. *)
Fixpoint run_cells (nb : list cell) (st : state) : state * bool :=
  match nb with
  | [] => (st, false)
  | c :: nb' =>
      let r := run_cell c st in
      if r.2 then r else run_cells nb' r.1
  end.

Definition run_all (nb : list cell) (st : state) : state :=
  (run_cells nb st).1.

(** Statements that draw a random number. *)
Fixpoint draws (s : stmt) : bool :=
  match s with
  | AssignRandint _ _ _ => true
  | IfEq _ _ t e => draws t || draws e
  | _ => false
  end.

Definition cell_draws (c : cell) : bool :=
  match c with
  | Markdown _ => false
  | Code src => existsb draws src
  end.

(** Two states that differ in their entropy at most. *)
Definition agree (st st' : state) : Prop :=
  env st = env st' ∧ out st = out st' ∧ system st = system st'.

Definition final (entropy : list Z) : state :=
  run_all notebook (init entropy).

Definition actions (entropy : list Z) : list action :=
  out (final entropy).

(** The variable [NAME] at the end of the run. *)
Definition NAME (entropy : list Z) : option string :=
  env (final entropy) !! "NAME".

(** The lines of the run that went to a shell. *)
Definition lines (entropy : list Z) : list string :=
  system (final entropy).

End Kernel.

(** ** The file tree *)

Module Fs.

Inductive kind := Audio | Checkpoint | Config | Features | Blob.

(** A regular file carries its kind and a description of where its
    content comes from. *)
Inductive node :=
| Dir
| File (k : kind) (origin : string).

#[global] Instance kind_eq_dec : EqDecision kind.
Proof. solve_decision. Defined.
#[global] Instance node_eq_dec : EqDecision node.
Proof. solve_decision. Defined.

(** The entry a path names; the root directory is always there. *)
Definition entry (t : gmap string node) (p : string) : option node :=
  if bool_decide (Str.normalize p = "") then Some Dir
  else t !! Str.normalize p.

Definition is_dir (t : gmap string node) (p : string) : bool :=
  bool_decide (entry t p = Some Dir).

Definition is_audio (t : gmap string node) (p : string) : bool :=
  match t !! p with Some (File Audio _) => true | _ => false end.


(** A path against the working directory. *)
Definition resolve (cwd p : string) : string :=
  if Str.starts_with "/" p then p
  else cwd +:+ "/" +:+ default p (Str.strip_prefix "./" p).

(** The directories on the way to [p], [p] included, outermost first. *)
Fixpoint ancestors_go (acc s : string) : list string :=
  match s with
  | EmptyString => [acc]
  | String c s' =>
      if Ascii.eqb c "/"
      then acc :: ancestors_go (acc +:+ "/") s'
      else ancestors_go (acc +:+ String c "") s'
  end.

Definition ancestors (p : string) : list string :=
  filter (fun d => d ≠ "") (ancestors_go "" (Str.normalize p)).

(** [mkdir -p]: fails when a regular file is in the way. *)
Definition mkdir_step (acc : option (gmap string node)) (d : string)
    : option (gmap string node) :=
  t ← acc;
  match t !! d with
  | None => Some (<[d := Dir]> t)
  | Some Dir => Some t
  | Some (File _ _) => None
  end.

Definition mkdir_p (p : string) (t : gmap string node)
    : option (gmap string node) :=
  foldl mkdir_step (Some t) (ancestors p).

(** Writing a regular file creates it or replaces what was there. *)
Definition write (p : string) (k : kind) (origin : string)
    (t : gmap string node) : gmap string node :=
  <[p := File k origin]> t.

Definition kind_of_name (p : string) : kind :=
  if Str.ends_with ".wav" p then Audio
  else if Str.ends_with ".pth" p then Checkpoint
  else if Str.ends_with ".json" p then Config
  else Blob.

End Fs.

(** ** The [svc] command line *)

(** The package behind [svc] is not part of the excerpt.  Its subcommands
    are modelled from section 6 of the specification (EXTERNAL INTERFACES)
    and, for the number of checkpoints kept, from the notebook's
    "Before training" cell. *)
Module Svc.
Import Fs.

Definition raw_dataset : string := "dataset_raw/44k".
Definition dataset : string := "dataset/44k".
Definition config_dir : string := "configs/44k".
Definition config_path : string := "configs/44k/config.json".

(** Modelled from the spec: [svc pre-resample] is missing from the source;
    it "resamples a raw dataset directory in place".  Every audio file
    below [dataset_raw/44k] is replaced, at its own path, by its resampled
    version; nothing else changes. *)
Definition pre_resample (cwd : string) (t : gmap string node)
    : gmap string node :=
  map_imap (fun p n =>
    Some match n with
         | File Audio o =>
             if Str.under (resolve cwd raw_dataset) p
             then File Audio ("resample(" +:+ o +:+ ")")
             else n
         | _ => n
         end) t.

(** Modelled from the spec: [svc pre-config] is missing from the source;
    it "generates a training configuration file ([config.json])", the
    artefact [configs/44k/config.json]. *)
Definition pre_config (cwd : string) (t : gmap string node)
    : option (gmap string node) :=
  t' ← mkdir_p (resolve cwd config_dir) t;
  Some (write (resolve cwd config_path) Config "pre-config" t').

(** Modelled from the spec: [svc pre-hubert] is missing from the source;
    it "extracts speech features into the dataset directory".  The
    notebook knows two directories, [dataset_raw/44k] and [dataset/44k];
    the features of [dataset_raw/44k/a.wav] go to [dataset/44k/a.wav.feat]
    (the spec names no feature file). *)
Definition pre_hubert (cwd : string) (t : gmap string node)
    : gmap string node :=
  map_fold (fun p n acc =>
    match n, Str.strip_prefix (resolve cwd raw_dataset +:+ "/") p with
    | File Audio o, Some rel =>
        write (resolve cwd dataset +:+ "/" +:+ rel +:+ ".feat") Features
              ("hubert(" +:+ o +:+ ")") acc
    | _, _ => acc
    end) (default t (mkdir_p (resolve cwd dataset) t)) t.

(** Modelled from the spec: the names [svc train] gives its checkpoints
    are missing from the source; the spec has "model checkpoint files
    matching pattern [G_*.pth]".  Generation [g] is [G_g.pth]. *)
Definition checkpoint_name (g : nat) : string :=
  "G_" +:+ Str.of_nat g +:+ ".pth".

Definition checkpoint_path (dir : string) (g : nat) : string :=
  Str.normalize dir +:+ "/" +:+ checkpoint_name g.

Definition is_checkpoint_name (name : string) : bool :=
  Str.starts_with "G_" name && Str.ends_with ".pth" name.

(** The number of generations kept. *)
Definition keep : nat := 3.

(** Modelled from the spec: the checkpoint writer of [svc train] is
    missing from the source; the notebook documents it as "saves the last
    3 generations of models to Google Drive".  [kept] lists the retained
    generations, newest first: saving generation [g] writes [G_g.pth] and
    removes the files of the generations that fall out of the newest
    [keep]. *)
Definition save_generation (dir : string) (g : nat)
    (st : list nat * gmap string node) : list nat * gmap string node :=
  let all := g :: st.1 in
  (take keep all,
   foldr (fun old t => delete (checkpoint_path dir old) t)
         (write (checkpoint_path dir g) Checkpoint
                ("generation " +:+ Str.of_nat g) st.2)
         (drop keep all)).

Definition train_loop (dir : string) (saves : nat) (t : gmap string node)
    : list nat * gmap string node :=
  foldl (fun st g => save_generation dir g st) ([], t) (seq 1 saves).

(** Modelled from the spec: [svc train --model-path <dir>] is missing from
    the source; it "trains a model, persisting checkpoints under the given
    directory".  [saves] is the number of generations written before the
    user stops the training. *)
Definition train (cwd dir : string) (saves : nat) (t : gmap string node)
    : option (gmap string node) :=
  t' ← mkdir_p (resolve cwd dir) t;
  Some (train_loop (resolve cwd dir) saves t').2.

(** Modelled from the spec: how [svc infer] finds its model is missing
    from the source.  A [-m] argument gives access to the checkpoint file
    it names, or to the [G_*.pth] files of the directory it names. *)
Definition is_checkpoint_in (t : gmap string node) (dir p : string) : bool :=
  match t !! p, Str.strip_prefix (Str.normalize dir +:+ "/") p with
  | Some (File Checkpoint _), Some name =>
      is_checkpoint_name name && bool_decide (Str.basename p = name)
  | _, _ => false
  end.

Definition checkpoints (t : gmap string node) (m : string) : list string :=
  match entry t m with
  | Some (File Checkpoint _) => [Str.normalize m]
  | Some Dir => filter (fun p => is_checkpoint_in t m p) (map_to_list t).*1
  | _ => []
  end.

(** Modelled from the spec: the output of [svc infer <input.wav>] is
    [<input>.out.wav], the input path with [.out.wav] substituted for
    [.wav]. *)
Definition output_path (input : string) : option string :=
  stem ← Str.strip_suffix ".wav" input;
  Some (stem +:+ ".out.wav").

Definition origin_of (t : gmap string node) (p : string) : string :=
  match t !! p with Some (File _ o) => o | _ => "" end.

(** Modelled from the spec: [svc infer <input.wav> -m <model-dir>
    -c <config.json> [--speaker <name>]] is missing from the source; it
    "converts an input audio file, producing [<input>.out.wav]".  It needs
    the input audio and a checkpoint to load; the spec does not say how
    the configuration and the speaker are used, they are passed along
    unread. *)
Definition infer (cwd input m c : string) (speaker : option string)
    (t : gmap string node) : option (gmap string node) :=
  out ← output_path input;
  if is_audio t (resolve cwd input)
     && bool_decide (checkpoints t (resolve cwd m) ≠ [])
  then Some (write (resolve cwd out) Audio
               ("infer(" +:+ origin_of t (resolve cwd input)
                +:+ ", " +:+ m +:+ ")") t)
  else None.

(** Modelled from the spec: the argument parser of [svc] is missing from
    the source.  Words that start with [-] are options and take the next
    word as their value ([-m], [-c], [--speaker], [--model-path]), the
    others are positional. *)
Fixpoint parse (args : list string) : list string * list (string * string) :=
  match args with
  | [] => ([], [])
  | a :: rest =>
      if Str.starts_with "-" a
      then match rest with
           | [] => ([], [(a, "")])
           | v :: rest' => let r := parse rest' in (r.1, (a, v) :: r.2)
           end
      else let r := parse rest in (a :: r.1, r.2)
  end.

Definition option_value (name : string) (opts : list (string * string))
    : option string :=
  snd <$> find (fun o => String.eqb o.1 name) opts.

(** Modelled from the spec: the entry point of [svc] is missing from the
    source; section 6 lists its five subcommands. *)
Definition main (saves : nat) (cwd : string) (args : list string)
    (t : gmap string node) : option (gmap string node) :=
  match args with
  | [] => None
  | sub :: rest =>
      let a := parse rest in
      if String.eqb sub "pre-resample" then Some (pre_resample cwd t)
      else if String.eqb sub "pre-config" then pre_config cwd t
      else if String.eqb sub "pre-hubert" then Some (pre_hubert cwd t)
      else if String.eqb sub "train" then
        dir ← option_value "--model-path" a.2;
        train cwd dir saves t
      else if String.eqb sub "infer" then
        input ← head a.1;
        m ← option_value "-m" a.2;
        c ← option_value "-c" a.2;
        infer cwd input m c (option_value "--speaker" a.2) t
      else None
  end.

End Svc.

(** ** The shell commands of the notebook *)

Module Shell.
Import Fs.

(** [cp SRC DST] of a regular file.  When [DST] is a directory the copy
    goes into it, under the name of [SRC], and [cp] refuses to replace a
    directory of that name; otherwise the copy goes onto [DST], which has
    to lie in a directory that exists and may not end in a slash.  [cp]
    also refuses to copy a file onto itself, and an empty name. *)
Definition cp_file (cwd src dst : string) (t : gmap string node)
    : option (gmap string node) :=
  if String.eqb src "" || String.eqb dst "" || Str.ends_with "/" src
  then None
  else
    match t !! resolve cwd src with
    | Some (File k o) =>
        let d := Str.normalize (resolve cwd dst) in
        if is_dir t (resolve cwd dst)
        then
          let target := d +:+ "/" +:+ Str.basename src in
          match t !! target with
          | Some Dir => None
          | _ =>
              if bool_decide (target = resolve cwd src) then None
              else Some (write target k o t)
          end
        else if Str.ends_with "/" dst then None
        else
          match t !! d with
          | Some Dir => None
          | Some (File _ _) =>
              if bool_decide (d = resolve cwd src) then None
              else Some (write d k o t)
          | None =>
              if is_dir t (Str.dirname d) then Some (write d k o t)
              else None
          end
    | _ => None
    end.

(** What [cp -R] does not replace: a regular file by a directory, a
    directory by a regular file. *)
Definition clash (n : node) (o : option node) : bool :=
  match n, o with
  | Dir, Some (File _ _) => true
  | File _ _, Some Dir => true
  | _, _ => false
  end.

(** The entry [p] of the tree lies in the source [s] and cannot be copied
    to its place below [d]. *)
Definition in_the_way (s d : string) (t : gmap string node)
    (p : string) (n : node) : bool :=
  match Str.strip_prefix s p with
  | Some rel =>
      (bool_decide (rel = "") || Str.starts_with "/" rel)
      && clash n (t !! (d +:+ rel))
  | None => false
  end.

(** [cp -R SRC -t DST]: [DST] has to be a directory.  A regular file is
    copied into it.  The tree below a directory [SRC] is copied to
    [DST/basename SRC], entry by entry, unless that place is [SRC] itself
    or lies inside it, or one of the entries is in the way. *)
Definition cp_tree (cwd src dst : string) (t : gmap string node)
    : option (gmap string node) :=
  let s := Str.normalize (resolve cwd src) in
  let d := Str.normalize (resolve cwd dst) +:+ "/" +:+ Str.basename s in
  if String.eqb src "" || String.eqb dst ""
     || negb (is_dir t (resolve cwd dst))
  then None
  else
    match entry t (resolve cwd src) with
    | Some (File _ _) => cp_file cwd src dst t
    | Some Dir =>
        if bool_decide (d = s) || Str.under s d then None
        else if bool_decide
                  (map_Forall (fun p n => in_the_way s d t p n = false) t)
        then Some (map_fold (fun p n acc =>
                     match Str.strip_prefix s p with
                     | Some rel =>
                         if bool_decide (rel = "") || Str.starts_with "/" rel
                         then <[d +:+ rel := n]> acc
                         else acc
                     | None => acc
                     end) t t)
        else None
    | None => None
    end.

(** [wget -N URL] stores the document under its last URL component. *)
Definition wget (cwd url : string) (t : gmap string node)
    : gmap string node :=
  let name := Str.basename url in
  write (resolve cwd name) (kind_of_name name) url t.

(** One command.  [None] is a non-zero exit status; what a command that
    fails leaves behind is not modelled, the tree is then taken as it
    was. *)
Definition exec (saves : nat) (cwd : string) (argv : list string)
    (t : gmap string node) : option (gmap string node) :=
  match argv with
  | [] => None
  | prog :: args =>
      if String.eqb prog "svc" then Svc.main saves cwd args t
      else if String.eqb prog "mkdir" then
        match args with
        | [flag; d] =>
            if String.eqb flag "-p" && negb (String.eqb d "")
            then mkdir_p (resolve cwd d) t else None
        | _ => None
        end
      else if String.eqb prog "cp" then
        match args with
        | [src; dst] => cp_file cwd src dst t
        | [r; src; flag; dst] =>
            if String.eqb r "-R" && String.eqb flag "-t"
            then cp_tree cwd src dst t else None
        | _ => None
        end
      else if String.eqb prog "wget" then
        match args with
        | [flag; url] =>
            if String.eqb flag "-N" then Some (wget cwd url t) else None
        | _ => None
        end
      else if String.eqb prog "nvidia-smi" || String.eqb prog "python"
      then Some t
      else None
  end.

(** The hosted machine: working directory, file tree, and what each
    [display(Audio(...))] found. *)
Record session := {
  cwd : string;
  tree : gmap string node;
  played : list (string * bool)
}.

(** What the session is started with: the entropy of [random], the
    machine's tree, the content of the Drive and the number of
    generations the training writes. *)
Record world := {
  w_entropy : list Z;
  w_cwd : string;
  w_tree : gmap string node;
  w_drive : gmap string node;
  w_saves : nat
}.

Definition start (w : world) : session :=
  {| cwd := w_cwd w; tree := w_tree w; played := [] |}.

Definition with_tree (t : gmap string node) (s : session) : session :=
  {| cwd := cwd s; tree := t; played := played s |}.

(** [drive.mount] shows the Drive's entries below the mount point. *)
Definition mount (m : string) (drive t : gmap string node)
    : gmap string node :=
  default t (mkdir_p m t) ∪ kmap (String.append (m +:+ "/")) drive.

(** One action of the kernel.  The words of a shell action are taken as
    one command, which the kernel waits for: that every line of the
    notebook is such a command is shown with [Proc] below. *)
Definition step (w : world) (s : session) (a : Kernel.action) : session :=
  match a with
  | Kernel.Sh argv =>
      with_tree (default (tree s) (exec (w_saves w) (cwd s) argv (tree s))) s
  | Kernel.LineMagic argv =>
      match argv with
      | [m; d] =>
          if String.eqb m "cd" && is_dir (tree s) (resolve (cwd s) d)
          then {| cwd := Str.normalize (resolve (cwd s) d); tree := tree s;
                  played := played s |}
          else s
      | _ => s
      end
  | Kernel.Mount m => with_tree (mount m (w_drive w) (tree s)) s
  | Kernel.Play p _ =>
      {| cwd := cwd s; tree := tree s;
         played := played s ++ [(p, is_audio (tree s) (resolve (cwd s) p))] |}
  end.

(** The sessions the run goes through: one per action, in order. *)
Fixpoint sessions (w : world) (s : session) (l : list Kernel.action)
    : list session :=
  match l with
  | [] => []
  | a :: l' => step w s a :: sessions w (step w s a) l'
  end.

Definition trace (w : world) : list session :=
  sessions w (start w) (Kernel.actions (w_entropy w)).

Definition run (w : world) : session :=
  foldl (step w) (start w) (Kernel.actions (w_entropy w)).

(** A fresh Colab machine, a Drive holding the dataset [kiritan] of the
    notebook's form field, and a training stopped after five saves. *)
Definition colab (r : Z) : world :=
  {| w_entropy := [r];
     w_cwd := "/content";
     w_tree := {[ "/content" := Dir ]};
     w_drive :=
       list_to_map
         [ ("MyDrive", Dir);
           ("MyDrive/so-vits-svc-fork", Dir);
           ("MyDrive/so-vits-svc-fork/dataset", Dir);
           ("MyDrive/so-vits-svc-fork/dataset/kiritan", Dir);
           ("MyDrive/so-vits-svc-fork/dataset/kiritan/01.wav", File Audio "kiritan 01");
           ("MyDrive/so-vits-svc-fork/dataset/kiritan/02.wav", File Audio "kiritan 02") ];
     w_saves := 5 |}.

End Shell.

(** ** Processes: what a shell makes of a line *)

Module Proc.

(** How a shell goes on after a simple command: it waits for it ([;],
    [&&], [||], a newline, the end of the line), leaves it running ([&]),
    or starts the next command beside it ([|]). *)
Inductive ending := Waited | Detached | Piped.

#[global] Instance ending_eq_dec : EqDecision ending.
Proof. solve_decision. Defined.

Definition newline : ascii := "010"%char.
Definition backquote : ascii := "096"%char.
Definition backslash : ascii := "092"%char.
Definition quote : ascii := "039"%char.

(** Lines this model reads: those without a substitution or an escape
    ([$], a backquote, a backslash) anywhere, and without a redirection,
    a subshell, a single quote or a comment ([<], [>], [(], [)], ['],
    [#]) outside double quotes. *)
Fixpoint known_go (quoted : bool) (s : string) : bool :=
  match s with
  | EmptyString => true
  | String c s' =>
      if Ascii.eqb c Str.dquote then known_go (negb quoted) s'
      else if Ascii.eqb c "$" || Ascii.eqb c backquote
              || Ascii.eqb c backslash
      then false
      else if negb quoted
              && (Ascii.eqb c "<" || Ascii.eqb c ">" || Ascii.eqb c "("
                  || Ascii.eqb c ")" || Ascii.eqb c quote || Ascii.eqb c "#")
      then false
      else known_go quoted s'
  end.

Definition known (line : string) : bool := known_go false line.

(** The line cut at the operators that stand outside double quotes. *)
Fixpoint split (cur : string) (quoted : bool) (s : string)
    : list (string * ending) :=
  match s with
  | EmptyString => [(cur, Waited)]
  | String c s' =>
      if Ascii.eqb c Str.dquote
      then split (cur +:+ String c "") (negb quoted) s'
      else if quoted then split (cur +:+ String c "") quoted s'
      else if Ascii.eqb c ";" || Ascii.eqb c newline
      then (cur, Waited) :: split "" false s'
      else if Ascii.eqb c "&" then
        match s' with
        | String c' s'' =>
            if Ascii.eqb c' "&" then (cur, Waited) :: split "" false s''
            else (cur, Detached) :: split "" false s'
        | EmptyString => [(cur, Detached)]
        end
      else if Ascii.eqb c "|" then
        match s' with
        | String c' s'' =>
            if Ascii.eqb c' "|" then (cur, Waited) :: split "" false s''
            else (cur, Piped) :: split "" false s'
        | EmptyString => [(cur, Piped)]
        end
      else split (cur +:+ String c "") quoted s'
  end.

(** The simple commands of a line, by their words, each with its
    ending. *)
Definition commands (line : string) : list (list string * ending) :=
  filter (fun c => bool_decide (c.1 ≠ []))
         (map (fun c => (Kernel.words c.1, c.2)) (split "" false line)).

Inductive event :=
| Start (argv : list string)
| Exit (argv : list string).

(** The processes of a line come and go in this order.  A command the
    shell waits for exits before the shell goes on, and with it the
    commands piped into it.  A detached command has no exit here: when it
    ends is not known, it may run as long as the session. *)
Fixpoint events_go (piped : list (list string))
    (l : list (list string * ending)) : list event :=
  match l with
  | [] => Exit <$> piped
  | (argv, Waited) :: l' =>
      Start argv :: Exit argv :: (Exit <$> piped) ++ events_go [] l'
  | (argv, Detached) :: l' => Start argv :: events_go [] l'
  | (argv, Piped) :: l' => Start argv :: events_go (piped ++ [argv]) l'
  end.

Definition events (line : string) : list event :=
  events_go [] (commands line).

(** How many processes may be running after each event, [n] before the
    first. *)
Fixpoint running (n : nat) (l : list event) : list nat :=
  match l with
  | [] => []
  | Start _ :: l' => S n :: running (S n) l'
  | Exit _ :: l' => pred n :: running (pred n) l'
  end.

(** The kernel hands the lines over one at a time, each when the shell of
    the line before has returned. *)
Definition run (entropy : list Z) : list event :=
  Kernel.lines entropy ≫= events.

(** The process an action of the kernel starts, if any. *)
Definition spawned (a : Kernel.action) : option (list string) :=
  match a with
  | Kernel.Sh argv => Some argv
  | Kernel.LineMagic (m :: args) =>
      if String.eqb m "pip" then Some ("python" :: "-m" :: "pip" :: args)
      else None
  | _ => None
  end.

(** The programs the notebook runs. *)
Definition programs : list string :=
  ["nvidia-smi"; "python"; "mkdir"; "cp"; "svc"; "wget"].

(** A line is one command the shell waits for. *)
Definition single (line : string) : bool :=
  known line
  && bool_decide (map snd (commands line) = [Waited]).

End Proc.


(** ** What the notebook asks of [svc] *)

Module Nb.
Import Kernel.

(** The [svc] invocations among the actions, by their arguments. *)
Definition svc_args (a : action) : option (list string) :=
  match a with
  | Sh (prog :: args) => if String.eqb prog "svc" then Some args else None
  | _ => None
  end.

Definition svc_calls (l : list action) : list (list string) :=
  omap svc_args l.

Definition subcommands (l : list action) : list string :=
  omap head (svc_calls l).

(** The position of a subcommand in the pipeline. *)
Definition stage (sub : string) : option nat :=
  if String.eqb sub "pre-resample" then Some 0%nat
  else if String.eqb sub "pre-config" then Some 1%nat
  else if String.eqb sub "pre-hubert" then Some 2%nat
  else if String.eqb sub "train" then Some 3%nat
  else if String.eqb sub "infer" then Some 4%nat
  else None.

Record infer_call := {
  input : string;
  model : string;
  config : string;
  speaker : option string
}.

#[global] Instance infer_call_eq_dec : EqDecision infer_call.
Proof. solve_decision. Defined.

Definition infer_of (args : list string) : option infer_call :=
  match args with
  | sub :: rest =>
      if String.eqb sub "infer" then
        let a := Svc.parse rest in
        i ← head a.1;
        m ← Svc.option_value "-m" a.2;
        c ← Svc.option_value "-c" a.2;
        Some {| input := i; model := m; config := c;
                speaker := Svc.option_value "--speaker" a.2 |}
      else None
  | [] => None
  end.

Definition infer_calls (l : list action) : list infer_call :=
  omap infer_of (svc_calls l).

(** The [--model-path] of the [svc train] invocations. *)
Definition train_of (args : list string) : option string :=
  match args with
  | sub :: rest =>
      if String.eqb sub "train"
      then Svc.option_value "--model-path" (Svc.parse rest).2
      else None
  | [] => None
  end.

Definition train_dirs (l : list action) : list string :=
  omap train_of (svc_calls l).

(** The file names [wget -N] stores its downloads under. *)
Definition download_of (a : action) : option string :=
  match a with
  | Sh [prog; flag; url] =>
      if String.eqb prog "wget" && String.eqb flag "-N"
      then Some (Str.basename url) else None
  | _ => None
  end.

Definition downloads (l : list action) : list string :=
  omap download_of l.

(** Each [svc infer] with the file its cell plays next, if any. *)
Fixpoint infer_plays (l : list action) : list (infer_call * option string) :=
  match l with
  | [] => []
  | a :: rest =>
      match svc_args a ≫= infer_of with
      | Some c =>
          (c, match rest with Play p _ :: _ => Some p | _ => None end)
            :: infer_plays rest
      | None => infer_plays rest
      end
  end.

(** The shell commands with the session each one starts in. *)
Definition issued (w : Shell.world) : list (action * Shell.session) :=
  let l := actions (Shell.w_entropy w) in
  zip l (Shell.start w :: Shell.trace w).

Definition infers_issued (w : Shell.world)
    : list (infer_call * Shell.session) :=
  omap (fun x => c ← svc_args x.1 ≫= infer_of; Some (c, x.2)) (issued w).

End Nb.

(** ** Sample trees *)

Module Sample.
Import Fs.

(** A source recording and the two downloaded checkpoints. *)
Definition inference : gmap string node :=
  list_to_map
    [ ("/content", Dir);
      ("/content/42.wav", File Audio "voice");
      ("/content/G_riri_220.pth", File Checkpoint "riri");
      ("/content/G_166400.pth", File Checkpoint "pinkie") ].

Definition converted_riri : gmap string node :=
  default ∅ (Svc.infer "/content" ("42" +:+ ".wav") "G_riri_220.pth"
               "config.json" None inference).

Definition converted_pinkie : gmap string node :=
  default ∅ (Svc.infer "/content" ("42" +:+ ".wav") "G_166400.pth"
               "config.json" (Some "Pinkie {neutral}") converted_riri).

(** A machine with a raw dataset of one speaker. *)
Definition dataset : gmap string node :=
  list_to_map
    [ ("/content", Dir);
      ("/content/drive", Dir);
      ("/content/dataset_raw", Dir);
      ("/content/dataset_raw/44k", Dir);
      ("/content/dataset_raw/44k/kiritan", Dir);
      ("/content/dataset_raw/44k/kiritan/01.wav", File Audio "kiritan 01");
      ("/content/notes.wav", File Audio "notes") ].


Definition trained : gmap string node :=
  default ∅ (Svc.train "/content" "logs/44k" 5 inference).

End Sample.

(** ** Form fields, fields of a line, and single cells *)

Module Form.
Import Kernel.

(** Colab's [#@param]: editing the form field rewrites the literal of the
    assignment in the cell. *)
Fixpoint set_param (x v : string) (s : stmt) : stmt :=
  match s with
  | Param y w => if String.eqb y x then Param y v else s
  | IfEq y w t e => IfEq y w (set_param x v t) (set_param x v e)
  | _ => s
  end.

Definition set_param_cell (x v : string) (c : cell) : cell :=
  match c with
  | Markdown _ => c
  | Code src => Code (map (set_param x v) src)
  end.

(** The install cell, the copy cell and the first inference cell. *)
Definition install_cell : cell := nth 3 notebook (Markdown []).
Definition copy_cell : cell := nth 9 notebook (Markdown []).

(** The [!] lines of a cell, as written. *)
Definition shell_lines (c : cell) : list string :=
  match c with
  | Markdown _ => []
  | Code src =>
      omap (fun s => match s with Shell cmd => Some cmd | _ => None end) src
  end.

(** The command of the last inference cell. *)
Definition speaker_line : string :=
  nth 0 (shell_lines (nth 23 notebook (Markdown []))) "".

(** Characters that mean nothing to the shell: letters, digits, [-], [_],
    [.] and [/]. *)
Definition plain_char (c : ascii) : bool :=
  let n := nat_of_ascii c in
  ((48 <=? n) && (n <=? 57) || (65 <=? n) && (n <=? 90)
   || (97 <=? n) && (n <=? 122) || (n =? 45) || (n =? 95) || (n =? 46)
   || (n =? 47))%nat.

Fixpoint plain (s : string) : bool :=
  match s with
  | EmptyString => true
  | String c s' => plain_char c && plain s'
  end.

(** Strings without a blank or a double quote: one shell word. *)
Fixpoint quiet (s : string) : bool :=
  match s with
  | EmptyString => true
  | String c s' =>
      negb (Ascii.eqb c Str.dquote) && negb (Ascii.eqb c " ") && quiet s'
  end.

Fixpoint has_brace (s : string) : bool :=
  match s with
  | EmptyString => false
  | String c s' => Ascii.eqb c "{" || Ascii.eqb c "}" || has_brace s'
  end.

(** The names of the fields of a line, in order; [None] when the braces
    do not match. *)
Fixpoint fields_go (pending : option string) (s : string)
    : option (list string) :=
  match s with
  | EmptyString =>
      match pending with None => Some [] | Some _ => None end
  | String c s' =>
      match pending with
      | None =>
          if Ascii.eqb c "{" then fields_go (Some "") s'
          else if Ascii.eqb c "}" then None
          else fields_go None s'
      | Some n =>
          if Ascii.eqb c "}" then (n ::.) <$> fields_go None s'
          else fields_go (Some (n +:+ String c "")) s'
      end
  end.

(** The line with every field replaced by the value of its variable (the
    empty string for a variable that is not there). *)
Fixpoint fill_go (e : gmap string string) (pending : option string)
    (s : string) : string :=
  match s with
  | EmptyString => ""
  | String c s' =>
      match pending with
      | None =>
          if Ascii.eqb c "{" then fill_go e (Some "") s'
          else String c (fill_go e None s')
      | Some n =>
          if Ascii.eqb c "}" then default "" (e !! n) +:+ fill_go e None s'
          else fill_go e (Some (n +:+ String c "")) s'
      end
  end.

Definition defined (e : gmap string string) (x : string) : bool :=
  bool_decide (is_Some (e !! x)).

#[global] Instance action_eq_dec : EqDecision action.
Proof. solve_decision. Defined.


(** An action one of whose words still holds a brace. *)
Definition unexpanded (a : action) : bool :=
  match a with
  | Sh argv | LineMagic argv => existsb has_brace argv
  | Mount m => has_brace m
  | Play p _ => has_brace p
  end.

Definition plays (l : list action) : list (string * bool) :=
  omap (fun a => match a with Play p b => Some (p, b) | _ => None end) l.

(** An action that is not [%cd]. *)
Definition stays (a : action) : bool :=
  match a with
  | LineMagic [m; d] => negb (String.eqb m "cd")
  | _ => true
  end.

End Form.

(** ** A machine with the Drive mounted *)

Module Machine.
Import Fs.





End Machine.


(** * Properties *)

(** ** Strings *)

Section StrFacts.

Lemma length_append (a b : string) :
  String.length (a +:+ b) = (String.length a + String.length b)%nat.
Proof. induction a as [|c a IH]; simpl; [done | by rewrite IH]. Qed.

Lemma append_nil (b : string) : "" +:+ b = b.
Proof. reflexivity. Qed.

Lemma append_cons (x : ascii) (a b : string) :
  String x a +:+ b = String x (a +:+ b).
Proof. reflexivity. Qed.

Lemma append_assoc (a b c : string) : (a +:+ b) +:+ c = a +:+ b +:+ c.
Proof.
  induction a as [|x a IH]; [done |]. by rewrite !append_cons, IH.
Qed.

Lemma strip_suffix_unfold (suf s : string) :
  Str.strip_suffix suf s =
  if String.eqb s suf then Some ""
  else match s with
       | EmptyString => None
       | String c s' => String c <$> Str.strip_suffix suf s'
       end.
Proof. by destruct s. Qed.

Lemma strip_suffix_app (suf pre : string) :
  Str.strip_suffix suf (pre +:+ suf) = Some pre.
Proof.
  induction pre as [|c pre IH]; rewrite strip_suffix_unfold.
  - simpl. by rewrite String.eqb_refl.
  - destruct (String.eqb_spec (String c pre +:+ suf) suf) as [E|_].
    + apply (f_equal String.length) in E.
      rewrite length_append in E. simpl in E. lia.
    + simpl. by rewrite IH.
Qed.

Lemma strip_suffix_Some (suf s pre : string) :
  Str.strip_suffix suf s = Some pre → s = pre +:+ suf.
Proof.
  revert pre. induction s as [|c s IH]; intros pre;
    rewrite strip_suffix_unfold.
  - destruct (String.eqb_spec "" suf) as [<-|_]; [by intros [= <-] | done].
  - destruct (String.eqb_spec (String c s) suf) as [E|_].
    + by intros [= <-].
    + destruct (Str.strip_suffix suf s) as [r|] eqn:Hr; simpl; [|done].
      intros [= <-]. by rewrite (IH r eq_refl) at 1.
Qed.

Lemma append_inj_r (suf a b : string) : a +:+ suf = b +:+ suf → a = b.
Proof.
  intros E. apply (f_equal (Str.strip_suffix suf)) in E.
  rewrite !strip_suffix_app in E. by injection E.
Qed.

Lemma of_nat_inj (m n : nat) : Str.of_nat m = Str.of_nat n → m = n.
Proof.
  unfold Str.of_nat. intros E.
  apply (f_equal NilEmpty.uint_of_string) in E.
  rewrite !NilEmpty.usu in E. injection E as E.
  apply (f_equal Nat.of_uint) in E.
  by rewrite !DecimalNat.Unsigned.of_to in E.
Qed.

Lemma checkpoint_path_inj (dir : string) (g h : nat) :
  Svc.checkpoint_path dir g = Svc.checkpoint_path dir h → g = h.
Proof.
  unfold Svc.checkpoint_path, Svc.checkpoint_name. intros E.
  do 3 apply String.app_inj in E.
  by apply of_nat_inj, (append_inj_r ".pth").
Qed.

End StrFacts.

(** ** The [svc] subcommands *)

Section SvcFacts.
Import Fs.

Lemma output_path_wav (stem : string) :
  Svc.output_path (stem +:+ ".wav") = Some (stem +:+ ".out.wav").
Proof. unfold Svc.output_path. by rewrite strip_suffix_app. Qed.

Lemma starts_with_char (a b : ascii) (s : string) :
  Str.starts_with (String a "") (String b s) = Ascii.eqb a b.
Proof.
  unfold Str.starts_with. simpl. destruct (Ascii.eqb a b).
  - apply bool_decide_eq_true_2. by eexists.
  - apply bool_decide_eq_false_2. by intros [? ?].
Qed.

(** Resolving leaves the extensions [.wav] and [.out.wav] alone. *)
Lemma resolve_extension (cwd stem : string) :
  ∃ r, resolve cwd (stem +:+ ".wav") = r +:+ ".wav" ∧
       resolve cwd (stem +:+ ".out.wav") = r +:+ ".out.wav".
Proof.
  unfold resolve.
  destruct stem as [|a [|b rest]];
    rewrite ?append_cons, ?append_nil.
  - exists (cwd +:+ "/"). by rewrite !append_assoc.
  - rewrite !starts_with_char. destruct (Ascii.eqb "/" a).
    + by exists (String a "").
    + exists (cwd +:+ "/" +:+ String a "").
      cbn [Str.strip_prefix].
      destruct (Ascii.eqb "." a); simpl; by rewrite !append_assoc.
  - rewrite !starts_with_char. destruct (Ascii.eqb "/" a).
    + exists (String a (String b rest)). by rewrite !append_cons.
    + cbn [Str.strip_prefix].
      destruct (Ascii.eqb "." a); [destruct (Ascii.eqb "/" b) |].
      * exists (cwd +:+ "/" +:+ rest). simpl. by rewrite !append_assoc.
      * exists (cwd +:+ "/" +:+ String a (String b rest)).
        simpl. by rewrite !append_assoc, !append_cons.
      * exists (cwd +:+ "/" +:+ String a (String b rest)).
        simpl. by rewrite !append_assoc, !append_cons.
Qed.

Lemma resolve_out_ne (cwd stem : string) :
  resolve cwd (stem +:+ ".wav") ≠ resolve cwd (stem +:+ ".out.wav").
Proof.
  destruct (resolve_extension cwd stem) as (r & -> & ->). intros E.
  by apply String.app_inj in E.
Qed.

(** C1: [svc infer] on [<input>.wav] writes to [<input>.out.wav], the
    input path with [.out.wav] in the place of [.wav]; when the command
    succeeds that file exists and holds audio, and no other file has
    changed. *)
Theorem infer_writes_out_wav (cwd stem m c : string)
    (speaker : option string) (t t' : gmap string node) :
  Svc.infer cwd (stem +:+ ".wav") m c speaker t = Some t' →
  Svc.output_path (stem +:+ ".wav") = Some (stem +:+ ".out.wav") ∧
  is_audio t' (resolve cwd (stem +:+ ".out.wav")) = true ∧
  ∀ p, p ≠ resolve cwd (stem +:+ ".out.wav") → t' !! p = t !! p.
Proof.
  unfold Svc.infer. rewrite output_path_wav. simpl.
  destruct (_ && _); [| done]. intros [= <-].
  split; [done |]. unfold is_audio, write. split.
  - by rewrite lookup_insert_eq.
  - intros p Hp. by rewrite lookup_insert_ne.
Qed.

(** C10: two successive [svc infer] on the same input write the same
    path whatever model and configuration they are given; after the
    second, the file holds the second conversion and the tree is the one
    the second invocation alone would have left. *)
Theorem infer_overwrites (cwd stem m1 c1 m2 c2 : string)
    (s1 s2 : option string) (t t1 t2 : gmap string node) :
  Svc.infer cwd (stem +:+ ".wav") m1 c1 s1 t = Some t1 →
  Svc.infer cwd (stem +:+ ".wav") m2 c2 s2 t1 = Some t2 →
  let out := resolve cwd (stem +:+ ".out.wav") in
  let src := Svc.origin_of t (resolve cwd (stem +:+ ".wav")) in
  Svc.output_path (stem +:+ ".wav") = Some (stem +:+ ".out.wav") ∧
  t1 !! out = Some (File Audio ("infer(" +:+ src +:+ ", " +:+ m1 +:+ ")")) ∧
  t2 !! out = Some (File Audio ("infer(" +:+ src +:+ ", " +:+ m2 +:+ ")")) ∧
  t2 = write out Audio ("infer(" +:+ src +:+ ", " +:+ m2 +:+ ")") t ∧
  (m1 ≠ m2 → t2 !! out ≠ t1 !! out).
Proof.
  unfold Svc.infer. rewrite output_path_wav. simpl.
  destruct (_ && _); [| done]. intros [= <-].
  destruct (_ && _); [| done]. intros [= <-].
  assert (Svc.origin_of
            (write (resolve cwd (stem +:+ ".out.wav")) Audio
               ("infer(" +:+ Svc.origin_of t (resolve cwd (stem +:+ ".wav"))
                +:+ ", " +:+ m1 +:+ ")") t)
            (resolve cwd (stem +:+ ".wav"))
          = Svc.origin_of t (resolve cwd (stem +:+ ".wav"))) as ->.
  { unfold Svc.origin_of, write.
    by rewrite lookup_insert_ne by (symmetry; apply resolve_out_ne). }
  unfold write. rewrite !lookup_insert_eq, insert_insert_eq.
  split_and!; try done.
  intros Hm [= E]. apply Hm.
  do 3 apply String.app_inj in E. symmetry. by apply (append_inj_r ")").
Qed.

(** C4: [svc pre-resample] works in place.  It creates no path and
    removes none, directories stay directories, and each audio file of
    [dataset_raw/44k] is found resampled at the path it had. *)
Theorem pre_resample_in_place (cwd : string) (t : gmap string node) :
  dom (Svc.pre_resample cwd t) = dom t ∧
  (∀ p, Svc.pre_resample cwd t !! p = Some Dir ↔ t !! p = Some Dir) ∧
  (∀ p o, t !! p = Some (File Audio o) →
          Str.under (resolve cwd Svc.raw_dataset) p = true →
          Svc.pre_resample cwd t !! p
          = Some (File Audio ("resample(" +:+ o +:+ ")"))) ∧
  (∀ p, Str.under (resolve cwd Svc.raw_dataset) p = false →
        Svc.pre_resample cwd t !! p = t !! p).
Proof.
  unfold Svc.pre_resample. split_and!.
  - apply set_eq. intros p. rewrite !elem_of_dom, map_lookup_imap.
    destruct (t !! p); simpl; [| by rewrite <- !not_eq_None_Some].
    split; intros _; by eexists.
  - intros p. rewrite map_lookup_imap.
    destruct (t !! p) as [[|[] o]|]; simpl; try done.
    destruct (Str.under _ _); naive_solver.
  - intros p o Hp Hu. rewrite map_lookup_imap, Hp. simpl. by rewrite Hu.
  - intros p Hu. rewrite map_lookup_imap.
    destruct (t !! p) as [[|[] o]|]; simpl; try done. by rewrite Hu.
Qed.

End SvcFacts.

(** ** Training: the generations kept *)

Section TrainFacts.
Import Fs.
Context (dir : string) (t : gmap string node).


Lemma train_loop_S (n : nat) :
  Svc.train_loop dir (S n) t
  = Svc.save_generation dir (S n) (Svc.train_loop dir n t).
Proof. unfold Svc.train_loop. by rewrite seq_S, foldl_app. Qed.

Lemma rev_seq_S (n : nat) : rev (seq 1 (S n)) = S n :: rev (seq 1 n).
Proof. by rewrite seq_S, rev_app_distr. Qed.

Lemma take_cons_take {A} (k : nat) (x : A) (l : list A) :
  take (S k) (x :: take (S k) l) = take (S k) (x :: l).
Proof. simpl. f_equal. rewrite take_take. f_equal. lia. Qed.

(** The retained generations are the newest three, newest first. *)
Lemma kept_newest (n : nat) : (Svc.train_loop dir n t).1 = take Svc.keep (rev (seq 1 n)).
Proof.
  induction n as [|n IH]; [done |].
  rewrite train_loop_S, rev_seq_S. unfold Svc.save_generation.
  cbn [fst]. rewrite IH. apply take_cons_take.
Qed.

(** Saving generation [n + 1] pushes out generation [n - 2], if any. *)
Lemma dropped_oldest (n : nat) :
  drop Svc.keep (S n :: take Svc.keep (rev (seq 1 n)))
  = if decide (3 ≤ n)%nat then [(n - 2)%nat] else [].
Proof.
  destruct n as [|[|[|m]]]; try done.
  rewrite !rev_seq_S. case_decide; [| lia].
  cbn. do 2 f_equal.
Qed.

Lemma tree_S (n : nat) :
  (Svc.train_loop dir (S n) t).2
  = let t' := write (Svc.checkpoint_path dir (S n)) Checkpoint
                ("generation " +:+ Str.of_nat (S n)) (Svc.train_loop dir n t).2 in
    if decide (3 ≤ n)%nat then delete (Svc.checkpoint_path dir (n - 2)%nat) t' else t'.
Proof.
  rewrite train_loop_S. unfold Svc.save_generation. cbn [snd].
  rewrite kept_newest, dropped_oldest. by case_decide.
Qed.

(** Of the generations written so far, exactly the last three have
    their file. *)
Lemma generation_files (n g : nat) :
  (1 ≤ g ≤ n)%nat →
  (Svc.train_loop dir n t).2 !! Svc.checkpoint_path dir g
  = if decide (n < g + 3)%nat
    then Some (File Checkpoint ("generation " +:+ Str.of_nat g))
    else None.
Proof.
  revert g. induction n as [|n IH]; intros g Hg; [lia |].
  rewrite tree_S. cbn zeta. unfold write.
  assert (∀ h, h ≠ g → Svc.checkpoint_path dir h ≠ Svc.checkpoint_path dir g) as Hne
    by (intros h Hh E; by apply Hh, (checkpoint_path_inj dir)).
  destruct (decide (g = S n)) as [->|Hgn].
  - destruct (decide (S n < S n + 3)%nat); [| lia].
    case_decide; [rewrite lookup_delete_ne by (apply Hne; lia) |];
      by rewrite lookup_insert_eq.
  - destruct (decide (3 ≤ n)%nat) as [H3|H3].
    + destruct (decide (g = n - 2)%nat) as [->|Hg2].
      * rewrite lookup_delete_eq. by destruct (decide (_ < _)%nat); [lia |].
      * rewrite lookup_delete_ne, lookup_insert_ne, IH by (auto; lia).
        repeat case_decide; done || lia.
    + rewrite lookup_insert_ne, IH by (auto; lia).
      repeat case_decide; done || lia.
Qed.

(** Training touches checkpoint files only. *)
Lemma other_files (n : nat) (p : string) :
  (∀ g, p ≠ Svc.checkpoint_path dir g) → (Svc.train_loop dir n t).2 !! p = t !! p.
Proof.
  intros Hp. induction n as [|n IH]; [done |].
  rewrite tree_S. cbn zeta. unfold write. case_decide.
  - by rewrite lookup_delete_ne, lookup_insert_ne.
  - by rewrite lookup_insert_ne.
Qed.

End TrainFacts.

(** ** Directories and checkpoint names *)

Section PathFacts.
Import Fs.

Lemma append_nil_r (a : string) : a +:+ "" = a.
Proof. induction a as [|x a IH]; [done |]. by rewrite append_cons, IH. Qed.

Lemma strip_prefix_app (a b : string) : Str.strip_prefix a (a +:+ b) = Some b.
Proof.
  induction a as [|x a IH]; [by destruct b |].
  rewrite append_cons. simpl. by rewrite Ascii.eqb_refl.
Qed.

Lemma under_child (d name : string) :
  Str.under d (Str.normalize d +:+ "/" +:+ name) = true.
Proof.
  unfold Str.under, Str.starts_with. rewrite <- append_assoc.
  rewrite strip_prefix_app. by apply bool_decide_eq_true_2.
Qed.

Lemma has_slash_app (a b : string) :
  Str.has_slash (a +:+ b) = Str.has_slash a || Str.has_slash b.
Proof.
  induction a as [|x a IH]; [done |].
  rewrite append_cons. simpl. by rewrite IH, orb_assoc.
Qed.

Lemma has_slash_uint (d : Decimal.uint) :
  Str.has_slash (NilEmpty.string_of_uint d) = false.
Proof. induction d; simpl; done. Qed.

Lemma basename_go_plain (cur s : string) :
  Str.has_slash s = false → Str.basename_go cur s = cur +:+ s.
Proof.
  revert cur. induction s as [|c s IH]; intros cur; simpl.
  - by rewrite append_nil_r.
  - intros [Hc Hs]%orb_false_iff. rewrite Hc, IH by done.
    by rewrite append_assoc.
Qed.

Lemma basename_go_slash (cur a b : string) :
  Str.basename_go cur (a +:+ String "/" b) = Str.basename_go "" b.
Proof.
  revert cur. induction a as [|c a IH]; intros cur.
  - done.
  - rewrite append_cons. simpl. destruct (Ascii.eqb c "/"); apply IH.
Qed.

Lemma basename_child (d name : string) :
  Str.has_slash name = false → Str.basename (d +:+ "/" +:+ name) = name.
Proof.
  intros H. unfold Str.basename.
  change ("/" +:+ name) with (String "/" name).
  by rewrite basename_go_slash, basename_go_plain.
Qed.

Lemma checkpoint_name_ok (g : nat) :
  Svc.is_checkpoint_name (Svc.checkpoint_name g) = true ∧
  Str.has_slash (Svc.checkpoint_name g) = false.
Proof.
  unfold Svc.is_checkpoint_name, Svc.checkpoint_name. split.
  - apply andb_true_iff. split.
    + unfold Str.starts_with. rewrite strip_prefix_app.
      by apply bool_decide_eq_true_2.
    + unfold Str.ends_with. rewrite <- append_assoc, strip_suffix_app.
      by apply bool_decide_eq_true_2.
  - rewrite !has_slash_app. unfold Str.of_nat. by rewrite has_slash_uint.
Qed.

Lemma mkdir_step_None (l : list string) : foldl mkdir_step None l = None.
Proof. by induction l. Qed.

Lemma mkdir_fold (l : list string) (t t' : gmap string node) :
  foldl mkdir_step (Some t) l = Some t' →
  (∀ d, d ∈ l → t' !! d = Some Dir) ∧
  (∀ q n, t !! q = Some n → t' !! q = Some n).
Proof.
  revert t. induction l as [|d l IH]; intros t; simpl.
  - intros [= <-]. split; [by intros d ?%elem_of_nil | done].
  - destruct (t !! d) as [[|k o]|] eqn:Hd.
    + intros [Hl Hk]%IH. split; [| done].
      intros d' [->|?]%elem_of_cons; auto.
    + by rewrite mkdir_step_None.
    + intros [Hl Hk]%IH. split.
      * intros d' [->|?]%elem_of_cons; [| auto].
        apply Hk, lookup_insert_eq.
      * intros q n Hq. apply Hk. rewrite lookup_insert_ne; [done |].
        intros ->. congruence.
Qed.

Lemma ancestors_go_self (acc s : string) :
  acc +:+ s ∈ ancestors_go acc s.
Proof.
  revert acc. induction s as [|c s IH]; intros acc; simpl.
  - rewrite append_nil_r. by apply list_elem_of_singleton.
  - specialize (IH (acc +:+ String c "")).
    rewrite append_assoc in IH.
    destruct (Ascii.eqb_spec c "/") as [->|_]; [by right | done].
Qed.

Lemma mkdir_p_spec (p : string) (t t' : gmap string node) :
  mkdir_p p t = Some t' →
  entry t' p = Some Dir ∧ (∀ q n, t !! q = Some n → t' !! q = Some n).
Proof.
  unfold mkdir_p. intros [Hl Hk]%mkdir_fold. split; [| done].
  unfold entry. case_bool_decide as Hp; [done |].
  apply Hl. unfold ancestors. apply list_elem_of_filter. split; [done |].
  apply (ancestors_go_self "").
Qed.

Lemma checkpoint_path_not_dir (d : string) (g : nat) :
  Str.normalize d ≠ Svc.checkpoint_path d g.
Proof.
  unfold Svc.checkpoint_path. intros E.
  apply (f_equal String.length) in E. rewrite length_append in E.
  simpl in E. lia.
Qed.

(** A checkpoint file of a directory is found through the directory. *)
Lemma checkpoints_dir (t : gmap string node) (d o : string) (g : nat) :
  entry t d = Some Dir →
  t !! Svc.checkpoint_path d g = Some (File Checkpoint o) →
  Svc.checkpoint_path d g ∈ Svc.checkpoints t d.
Proof.
  intros Hd Hg. unfold Svc.checkpoints. rewrite Hd.
  apply list_elem_of_filter. split.
  - unfold Svc.is_checkpoint_in. rewrite Hg.
    unfold Svc.checkpoint_path at 1.
    rewrite <- append_assoc, strip_prefix_app.
    destruct (checkpoint_name_ok g) as [-> Hs].
    by rewrite bool_decide_eq_true_2 by (by apply basename_child).
  - apply list_elem_of_fmap. exists (Svc.checkpoint_path d g, File Checkpoint o).
    split; [done |]. by apply elem_of_map_to_list.
Qed.

End PathFacts.

(** ** Training, configuration and inference together *)

Section PipelineFacts.
Import Fs.







(** C5: [svc train --model-path dir] leaves its checkpoints below [dir],
    and [dir] then serves as the [-m] argument of [svc infer]: the newest
    checkpoint is found through it and the conversion of an existing
    input succeeds. *)
Theorem train_then_infer (cwd dir : string) (saves : nat)
    (t t' : gmap string node) :
  (0 < saves)%nat →
  Svc.train cwd dir saves t = Some t' →
  let d := resolve cwd dir in
  (∀ g, (1 ≤ g ≤ saves)%nat → (saves < g + 3)%nat →
        t' !! Svc.checkpoint_path d g
        = Some (File Checkpoint ("generation " +:+ Str.of_nat g)) ∧
        Str.under d (Svc.checkpoint_path d g) = true) ∧
  is_dir t' d = true ∧
  Svc.checkpoint_path d saves ∈ Svc.checkpoints t' d ∧
  (∀ stem c speaker,
      is_audio t' (resolve cwd (stem +:+ ".wav")) = true →
      is_Some (Svc.infer cwd (stem +:+ ".wav") dir c speaker t')).
Proof.
  intros Hs. unfold Svc.train.
  destruct (mkdir_p (resolve cwd dir) t) as [t0|] eqn:Hmk; [| done].
  simpl. intros [= <-]. apply mkdir_p_spec in Hmk as [Hd _].
  assert (∀ g, (1 ≤ g ≤ saves)%nat → (saves < g + 3)%nat →
            (Svc.train_loop (resolve cwd dir) saves t0).2
              !! Svc.checkpoint_path (resolve cwd dir) g
            = Some (File Checkpoint ("generation " +:+ Str.of_nat g)))
    as Hfile.
  { intros g Hg Hn. rewrite generation_files by done. by case_decide. }
  assert (entry (Svc.train_loop (resolve cwd dir) saves t0).2
            (resolve cwd dir) = Some Dir) as Hdir.
  { revert Hd. unfold entry. case_bool_decide; [done |].
    rewrite other_files; [done |]. intros g. apply checkpoint_path_not_dir. }
  assert (Svc.checkpoint_path (resolve cwd dir) saves
          ∈ Svc.checkpoints (Svc.train_loop (resolve cwd dir) saves t0).2
              (resolve cwd dir)) as Hin.
  { eapply checkpoints_dir; [done |]. apply Hfile; lia. }
  split_and!.
  - intros g Hg Hn. split; [by apply Hfile | apply under_child].
  - unfold is_dir. by apply bool_decide_eq_true_2.
  - done.
  - intros stem c speaker Ha. unfold Svc.infer.
    rewrite output_path_wav. simpl. rewrite Ha.
    rewrite bool_decide_eq_true_2; [by eexists |].
    intros E. rewrite E in Hin. by apply elem_of_nil in Hin.
Qed.


End PipelineFacts.

(** ** The kernel: the run depends on the entropy through [NAME] only *)

Section KernelFacts.
Import Kernel.

Lemma raises_agree (s : stmt) (st st' : state) :
  agree st st' → raises s st = raises s st'.
Proof.
  intros (He & _ & _).
  induction s as [| | | | | | | | | |x v t IHt e IHe]; simpl; try done.
  - unfold has. by rewrite He.
  - unfold has. by rewrite He.
  - unfold has. by rewrite He.
  - rewrite He. destruct (env st' !! x) as [w|]; [| done].
    by rewrite IHt, IHe.
Qed.

Lemma assign_agree (x v : string) (st st' : state) :
  agree st st' → agree (assign x v st) (assign x v st').
Proof. intros (He & Ho & Hs). split_and!; simpl; congruence. Qed.

Lemma emit_agree (a : action) (st st' : state) :
  agree st st' → agree (emit a st) (emit a st').
Proof. intros (He & Ho & Hs). split_and!; simpl; congruence. Qed.

Lemma hand_agree (l : string) (st st' : state) :
  agree st st' → agree (hand l st) (hand l st').
Proof. intros (He & Ho & Hs). split_and!; simpl; congruence. Qed.

Lemma exec_agree (s : stmt) (st st' : state) :
  draws s = false → agree st st' → agree (exec s st) (exec s st').
Proof.
  revert st st'.
  induction s as [| | | | | | |m names| | |x v t IHt e IHe];
    intros st st' Hd H; pose proof H as (He & Ho & Hs); simpl in *;
    try done.
  - rewrite He. by apply hand_agree, emit_agree.
  - rewrite He. destruct (pip_line _ _);
      [by apply hand_agree, emit_agree | by apply emit_agree].
  - by apply assign_agree.
  - by apply assign_agree.
  - clear Hd He Ho Hs. revert st st' H.
    induction names as [|n names IH]; intros st st' H; simpl; [done |].
    by apply IH, assign_agree.
  - by apply emit_agree.
  - rewrite He. destruct (fstring _ _); [by apply emit_agree | done].
  - apply orb_false_iff in Hd as [Ht Hf]. rewrite He.
    destruct (bool_decide _); [by apply IHt | by apply IHe].
Qed.

Lemma exec_entropy (s : stmt) (st : state) :
  draws s = false → entropy (exec s st) = entropy st.
Proof.
  revert st. induction s as [| | | | | | |m names| | |x v t IHt e IHe];
    intros st Hd; simpl in *; try done.
  - by destruct (pip_line _ _).
  - clear Hd. revert st.
    induction names as [|n names IH]; intros st; simpl; [done |].
    by rewrite IH.
  - by destruct (fstring _ _).
  - apply orb_false_iff in Hd as [Ht Hf].
    destruct (bool_decide _); [by apply IHt | by apply IHe].
Qed.

Lemma exec_stmts_app (l1 l2 : list stmt) (st : state) :
  exec_stmts (l1 ++ l2) st
  = if (exec_stmts l1 st).2 then exec_stmts l1 st
    else exec_stmts l2 (exec_stmts l1 st).1.
Proof.
  revert st. induction l1 as [|s l1 IH]; intros st; simpl; [done |].
  destruct (raises s st); [done | apply IH].
Qed.

Lemma run_cells_app (nb1 nb2 : list cell) (st : state) :
  run_cells (nb1 ++ nb2) st
  = if (run_cells nb1 st).2 then run_cells nb1 st
    else run_cells nb2 (run_cells nb1 st).1.
Proof.
  revert st. induction nb1 as [|c nb1 IH]; intros st; simpl; [done |].
  destruct (run_cell c st).2 eqn:Hc; [by rewrite Hc | apply IH].
Qed.

(** Statements that do not draw keep two sessions in step. *)
Lemma exec_stmts_agree (l : list stmt) (st st' : state) :
  existsb draws l = false → agree st st' →
  agree (exec_stmts l st).1 (exec_stmts l st').1 ∧
  (exec_stmts l st).2 = (exec_stmts l st').2 ∧
  entropy (exec_stmts l st).1 = entropy st.
Proof.
  revert st st'. induction l as [|s l IH]; intros st st' Hl H; [done |].
  simpl in Hl. apply orb_false_iff in Hl as [Hs Hl]. simpl.
  rewrite <- (raises_agree s st st' H).
  destruct (raises s st); [done |].
  destruct (IH (exec s st) (exec s st') Hl (exec_agree s st st' Hs H))
    as (H1 & H2 & H3).
  split_and!; [done | done |]. by rewrite H3, exec_entropy.
Qed.

Lemma run_cells_agree (nb : list cell) (st st' : state) :
  existsb cell_draws nb = false → agree st st' →
  agree (run_cells nb st).1 (run_cells nb st').1 ∧
  (run_cells nb st).2 = (run_cells nb st').2 ∧
  entropy (run_cells nb st).1 = entropy st.
Proof.
  revert st st'. induction nb as [|c nb IH]; intros st st' Hl H; [done |].
  simpl in Hl. apply orb_false_iff in Hl as [Hc Hl].
  cbn [run_cells]. cbv zeta.
  assert (agree (run_cell c st).1 (run_cell c st').1 ∧
          (run_cell c st).2 = (run_cell c st').2 ∧
          entropy (run_cell c st).1 = entropy st) as (H1 & H2 & H3).
  { destruct c as [src|src]; [done |]. by apply exec_stmts_agree. }
  rewrite <- H2. destruct (run_cell c st).2 eqn:Hf.
  { split_and!; [done | by rewrite <- H2 | done]. }
  destruct (IH _ _ Hl H1) as (H4 & H5 & H6).
  split_and!; [done | done |]. by rewrite H6.
Qed.

Lemma randint_mod (n r : Z) :
  n ≠ 0 → randbelow (r mod n) n = randbelow r n.
Proof. intros Hn. unfold randbelow. by rewrite Z.mod_mod. Qed.

Lemma randint_1_100 (r : Z) :
  randint 1 100 (r mod 100) = randint 1 100 r.
Proof.
  unfold randint. change (100 - 1 + 1) with 100.
  by rewrite randint_mod.
Qed.

(** The cells of the notebook: one draw, for [NAME]. *)
Lemma notebook_draw :
  ∃ nb1 l1 l2 nb2,
    notebook = nb1 ++ Code (l1 ++ AssignRandint "NAME" 1 100 :: l2) :: nb2 ∧
    existsb cell_draws nb1 = false ∧ existsb draws l1 = false ∧
    existsb draws l2 = false ∧ existsb cell_draws nb2 = false.
Proof.
  exists (take 17 notebook),
         [Comment "@title Get the author's voice as a source"; Import "random"],
         [Shell ("wget -N " +:+ Str.q
                 +:+ "https://github.com/34j/34j/raw/main/jvs-parallel100/{NAME}.wav"
                 +:+ Str.q);
          FromImport "IPython.display" ["Audio"; "display"];
          DisplayAudio "{NAME}.wav" false],
         (drop 18 notebook).
  by vm_compute.
Qed.

Lemma exec_randint_agree (x : string) (a b : Z) (st st' : state) :
  agree st st' →
  randint a b (hd 0 (entropy st)) = randint a b (hd 0 (entropy st')) →
  agree (exec (AssignRandint x a b) st) (exec (AssignRandint x a b) st').
Proof. intros (He & Ho & Hs) Hr. split_and!; simpl; congruence. Qed.

(** Two sessions that agree and draw the same number stay in step through
    a notebook with one draw. *)
Lemma run_draw_agree (nb1 nb2 : list cell) (l1 l2 : list stmt)
    (x : string) (a b : Z) (st st' : state) :
  existsb cell_draws nb1 = false → existsb draws l1 = false →
  existsb draws l2 = false → existsb cell_draws nb2 = false →
  agree st st' →
  randint a b (hd 0 (entropy st)) = randint a b (hd 0 (entropy st')) →
  agree (run_all (nb1 ++ Code (l1 ++ AssignRandint x a b :: l2) :: nb2) st)
        (run_all (nb1 ++ Code (l1 ++ AssignRandint x a b :: l2) :: nb2) st').
Proof.
  intros Hnb1 Hl1 Hl2 Hnb2 H Hr. unfold run_all.
  rewrite !run_cells_app.
  destruct (run_cells_agree nb1 st st' Hnb1 H) as (A1 & A2 & A3).
  destruct (run_cells_agree nb1 st' st') as (_ & _ & A3'); [done | done |].
  rewrite <- A2. destruct (run_cells nb1 st).2; [done |].
  set (s1 := (run_cells nb1 st).1) in *.
  set (s1' := (run_cells nb1 st').1) in *.
  cbn [run_cells run_cell]. rewrite !exec_stmts_app.
  destruct (exec_stmts_agree l1 s1 s1' Hl1 A1) as (B1 & B2 & B3).
  destruct (exec_stmts_agree l1 s1' s1') as (_ & _ & B3'); [done | done |].
  rewrite <- B2. destruct (exec_stmts l1 s1).2 eqn:Hf.
  { cbv zeta. simpl. rewrite Hf, <- B2. done. }
  set (s2 := (exec_stmts l1 s1).1) in *.
  set (s2' := (exec_stmts l1 s1').1) in *.
  cbn [exec_stmts].
  rewrite <- (raises_agree (AssignRandint x a b) s2 s2' B1).
  destruct (raises (AssignRandint x a b) s2); [done |].
  assert (agree (exec (AssignRandint x a b) s2)
                (exec (AssignRandint x a b) s2')) as C.
  { apply exec_randint_agree; [done |]. by rewrite B3, B3', A3, A3'. }
  destruct (exec_stmts_agree l2 _ _ Hl2 C) as (D1 & D2 & _).
  rewrite <- D2. destruct (exec_stmts l2 _).2; [done |].
  by apply run_cells_agree.
Qed.

Lemma final_agree (e : list Z) :
  agree (final e) (final [hd 0 e mod 100]).
Proof.
  unfold final.
  destruct notebook_draw as (nb1 & l1 & l2 & nb2 & -> & H1 & H2 & H3 & H4).
  apply run_draw_agree; try done.
  unfold init. cbn [entropy hd]. symmetry. apply randint_1_100.
Qed.

Lemma actions_agree (e : list Z) : actions e = actions [hd 0 e mod 100].
Proof. unfold actions. exact (proj1 (proj2 (final_agree e))). Qed.

Lemma lines_agree (e : list Z) : lines e = lines [hd 0 e mod 100].
Proof. unfold lines. exact (proj2 (proj2 (final_agree e))). Qed.

Lemma env_agree (e : list Z) :
  env (final e) = env (final [hd 0 e mod 100]).
Proof. exact (proj1 (final_agree e)). Qed.

(** A property of the run holds for every entropy as soon as it holds
    for the hundred values of [r mod 100]. *)
Lemma for_all_entropy (P : gmap string string → list action → bool) :
  forallb (fun k => P (env (final [Z.of_nat k])) (actions [Z.of_nat k]))
          (seq 0 100) = true →
  ∀ e, P (env (final e)) (actions e) = true.
Proof.
  intros H e.
  assert (0 ≤ hd 0 e mod 100 < 100) as Hr by (apply Z.mod_pos_bound; lia).
  assert (In (Z.to_nat (hd 0 e mod 100)) (seq 0 100)) as Hin
    by (apply in_seq; lia).
  rewrite (actions_agree e), (env_agree e).
  rewrite forallb_forall in H. specialize (H _ Hin).
  rewrite (Z2Nat.id _ (proj1 Hr)) in H. exact H.
Qed.

Lemma for_all_lines (P : list string → list action → bool) :
  forallb (fun k => P (lines [Z.of_nat k]) (actions [Z.of_nat k]))
          (seq 0 100) = true →
  ∀ e, P (lines e) (actions e) = true.
Proof.
  intros H e.
  assert (0 ≤ hd 0 e mod 100 < 100) as Hr by (apply Z.mod_pos_bound; lia).
  assert (In (Z.to_nat (hd 0 e mod 100)) (seq 0 100)) as Hin
    by (apply in_seq; lia).
  rewrite (actions_agree e), (lines_agree e).
  rewrite forallb_forall in H. specialize (H _ Hin).
  rewrite (Z2Nat.id _ (proj1 Hr)) in H. exact H.
Qed.

End KernelFacts.

(** ** The notebook's use of [svc] *)

Section NotebookFacts.
Import Kernel.

(** C3: the notebook reaches the tool through [svc] followed by one of
    the five subcommands and nothing else, and a run from top to bottom
    issues them in pipeline order: resample, config, features, train,
    then the three inferences; no stage comes before an earlier one. *)
Theorem pipeline_in_order (e : list Z) :
  Nb.subcommands (actions e)
  = ["pre-resample"; "pre-config"; "pre-hubert"; "train";
     "infer"; "infer"; "infer"] ∧
  length (Nb.svc_calls (actions e)) = length (Nb.subcommands (actions e)) ∧
  Forall (fun sub => is_Some (Nb.stage sub)) (Nb.subcommands (actions e)) ∧
  StronglySorted le (omap Nb.stage (Nb.subcommands (actions e))).
Proof.
  pose proof (for_all_entropy
    (fun _ l => bool_decide
       (Nb.subcommands l
        = ["pre-resample"; "pre-config"; "pre-hubert"; "train";
           "infer"; "infer"; "infer"])
     && bool_decide (length (Nb.svc_calls l) = 7%nat))) as H.
  specialize (H ltac:(vm_compute; reflexivity) e). cbv beta in H.
  apply andb_true_iff in H as [H1 H2].
  apply bool_decide_eq_true in H1. apply bool_decide_eq_true in H2.
  rewrite H1, H2. split_and!; [reflexivity | reflexivity | |].
  - repeat constructor; by eexists.
  - vm_compute. repeat (constructor; [| repeat constructor; lia]).
    constructor.
Qed.

(** C9: [NAME] is the decimal numeral of an integer from 1 to 100, the
    source file fetched is that numeral followed by [.wav], and the
    choice depends on the entropy: two runs may differ. *)
Theorem name_between_1_and_100 :
  (∀ e : list Z, ∃ n : Z,
      1 ≤ n ≤ 100 ∧
      n = randint 1 100 (hd 0 e) ∧
      NAME e = Some (Str.of_Z n) ∧
      head (Nb.downloads (actions e)) = Some (Str.of_Z n +:+ ".wav")) ∧
  (∃ e1 e2 : list Z, NAME e1 ≠ NAME e2).
Proof.
  split.
  - intros e. exists (randint 1 100 (hd 0 e)).
    assert (0 ≤ hd 0 e mod 100 < 100) as Hr by (apply Z.mod_pos_bound; lia).
    split; [unfold randint, randbelow; change (100 - 1 + 1) with 100; lia |].
    split; [done |].
    rewrite <- randint_1_100.
    unfold NAME. rewrite (actions_agree e), (env_agree e).
    set (k := hd 0 e mod 100) in *.
    assert (In (Z.to_nat k) (seq 0 100)) as Hin by (apply in_seq; lia).
    assert (forallb (fun i =>
              bool_decide
                (env (final [Z.of_nat i]) !! "NAME"
                 = Some (Str.of_Z (randint 1 100 (Z.of_nat i))))
              && bool_decide
                (head (Nb.downloads (actions [Z.of_nat i]))
                 = Some (Str.of_Z (randint 1 100 (Z.of_nat i)) +:+ ".wav")))
            (seq 0 100) = true) as H by (vm_compute; reflexivity).
    rewrite forallb_forall in H. specialize (H _ Hin).
    rewrite (Z2Nat.id _ (proj1 Hr)) in H.
    apply andb_true_iff in H as [H1 H2].
    apply bool_decide_eq_true in H1. apply bool_decide_eq_true in H2.
    split; [exact H1 | exact H2].
  - exists [0], [1]. vm_compute. discriminate.
Qed.

(** C2, as the notebook has it: the trained-model cell passes the
    directory given to [svc train --model-path]; the two pretrained-model
    cells pass a single downloaded checkpoint file [G_*.pth]. *)
Theorem infer_model_dir_or_checkpoint (e : list Z) :
  map Nb.model (Nb.infer_calls (actions e))
  = [model_dir +:+ "/"; "G_riri_220.pth"; "G_166400.pth"] ∧
  Forall (fun c =>
            Str.normalize (Nb.model c) ∈ Nb.train_dirs (actions e) ∨
            (Svc.is_checkpoint_name (Nb.model c) = true ∧
             Nb.model c ∈ Nb.downloads (actions e)))
         (Nb.infer_calls (actions e)).
Proof.
  pose proof (for_all_entropy
    (fun _ l =>
       bool_decide
         (map Nb.model (Nb.infer_calls l)
          = [model_dir +:+ "/"; "G_riri_220.pth"; "G_166400.pth"])
       && forallb (fun c =>
            bool_decide (Str.normalize (Nb.model c) ∈ Nb.train_dirs l)
            || (Svc.is_checkpoint_name (Nb.model c)
                && bool_decide (Nb.model c ∈ Nb.downloads l)))
          (Nb.infer_calls l))) as H.
  specialize (H ltac:(vm_compute; reflexivity) e). cbv beta in H.
  apply andb_true_iff in H as [H1 H2].
  apply bool_decide_eq_true in H1. split; [exact H1 |].
  rewrite forallb_forall in H2. apply List.Forall_forall. intros c Hc.
  specialize (H2 c Hc). cbv beta in H2.
  apply orb_true_iff in H2 as [H2|H2].
  - left. apply bool_decide_eq_true in H2. exact H2.
  - right. apply andb_true_iff in H2 as [? H2].
    apply bool_decide_eq_true in H2. split; assumption.
Qed.

(** C2 as stated fails: when the second [svc infer] of the notebook
    starts, its [-m] argument [G_riri_220.pth] is a regular file, the
    checkpoint [wget] has just stored, and not a directory. *)
Lemma infer_model_is_a_file :
  (∃ c s,
      (c, s) ∈ Nb.infers_issued (Shell.colab 41) ∧
      Nb.model c = "G_riri_220.pth" ∧
      Fs.is_dir (Shell.tree s) (Fs.resolve (Shell.cwd s) (Nb.model c)) = false ∧
      Shell.tree s !! Fs.resolve (Shell.cwd s) (Nb.model c)
      = Some (Fs.File Fs.Checkpoint
                "https://huggingface.co/TachibanaKimika/so-vits-svc-4.0-models/resolve/main/riri/G_riri_220.pth")) ∧
  ¬ (∀ w c s,
       (c, s) ∈ Nb.infers_issued w →
       Fs.is_dir (Shell.tree s) (Fs.resolve (Shell.cwd s) (Nb.model c)) = true).
Proof.
  set (l := Nb.infers_issued (Shell.colab 41)).
  set (x := nth 1 l (Nb.Build_infer_call "" "" "" None,
                     Shell.start (Shell.colab 41))).
  assert (length l = 3%nat) as Hl by (vm_compute; reflexivity).
  assert (x ∈ l) as Hx by (apply list_elem_of_In, nth_In; lia).
  assert (Nb.model x.1 = "G_riri_220.pth") as Hm
    by (vm_compute; reflexivity).
  assert (Fs.is_dir (Shell.tree x.2)
            (Fs.resolve (Shell.cwd x.2) (Nb.model x.1)) = false) as Hd
    by (vm_compute; reflexivity).
  assert (Shell.tree x.2 !! Fs.resolve (Shell.cwd x.2) (Nb.model x.1)
          = Some (Fs.File Fs.Checkpoint
                "https://huggingface.co/TachibanaKimika/so-vits-svc-4.0-models/resolve/main/riri/G_riri_220.pth"))
    as Hf by (vm_compute; reflexivity).
  clearbody x. destruct x as [c s]. cbn [fst snd] in *. split.
  - exists c, s. repeat split; assumption.
  - intros H. specialize (H (Shell.colab 41) c s Hx).
    rewrite H in Hd. discriminate.
Qed.

End NotebookFacts.

(** ** One command at a time *)

Section ProcFacts.
Import Kernel Proc.

(** Lines that are one waited command each never have two processes
    running, and leave none behind. *)
Lemma single_events (line : string) :
  single line = true →
  ∃ argv, commands line = [(argv, Waited)] ∧
          events line = [Start argv; Exit argv].
Proof.
  unfold single, events. intros [_ H%bool_decide_eq_true]%andb_true_iff.
  destruct (commands line) as [|[argv e] [|c l]]; try done.
  injection H as ->. by exists argv.
Qed.

Lemma running_singles (ls : list string) :
  forallb single ls = true →
  Forall (fun n => (n ≤ 1)%nat) (running 0 (ls ≫= events)) ∧
  last (0%nat :: running 0 (ls ≫= events)) = Some 0%nat.
Proof.
  induction ls as [|l ls IH]; intros H; [by split |].
  simpl in H. apply andb_true_iff in H as [Hl Hls].
  destruct (single_events l Hl) as (argv & _ & Hev).
  destruct (IH Hls) as [IH1 IH2].
  cbn [mbind list_bind]. rewrite Hev. cbn [app running pred]. split.
  - constructor; [lia |]. constructor; [lia | exact IH1].
  - exact IH2.
Qed.

Lemma known_program (argv : list string) :
  match head argv with
  | Some prog => bool_decide (prog ∈ programs)
  | None => false
  end = true →
  ∃ prog, head argv = Some prog ∧ prog ∈ programs.
Proof.
  destruct (head argv) as [prog|]; [| done].
  intros H%bool_decide_eq_true. by exists prog.
Qed.

(** A line with [&] or [|] between two commands has both running at
    once: the model does not make overlap impossible. *)
Lemma overlap_possible :
  running 0 (events "svc train --model-path logs/44k & svc infer 1.wav -m logs/44k")
  = [1; 2; 1]%nat ∧
  running 0 (events "svc pre-resample | svc pre-config") = [1; 2; 1; 0]%nat ∧
  running 0 (events "svc pre-resample && svc pre-config") = [1; 0; 1; 0]%nat.
Proof. by vm_compute. Qed.

(** C7: every line the run hands to a shell is one simple command that the
    shell waits for, without [&], [|] or [;]; these commands are the shell
    commands and the pip calls of the run, in their order; so a process
    starts only when the one before has exited, never are two running, and
    none is left when the run ends.  The programs are [nvidia-smi],
    [python], [mkdir], [cp], [svc] and [wget]: none takes a lock or
    schedules another. *)
Theorem one_command_at_a_time (e : list Z) :
  Forall (fun l => known l = true ∧ map snd (commands l) = [Waited])
         (lines e) ∧
  lines e ≫= commands
  = (fun argv => (argv, Waited)) <$> omap spawned (actions e) ∧
  Forall (fun n => (n ≤ 1)%nat) (running 0 (run e)) ∧
  last (0%nat :: running 0 (run e)) = Some 0%nat ∧
  Forall (fun argv => ∃ prog, head argv = Some prog ∧ prog ∈ programs)
         (omap spawned (actions e)).
Proof.
  pose proof (for_all_lines
    (fun ls l =>
       forallb single ls
       && bool_decide
            (ls ≫= commands
             = (fun argv => (argv, Waited)) <$> omap spawned l)
       && forallb (fun argv =>
                     match head argv with
                     | Some prog => bool_decide (prog ∈ programs)
                     | None => false
                     end) (omap spawned l))) as H.
  specialize (H ltac:(vm_compute; reflexivity) e). cbv beta in H.
  apply andb_true_iff in H as [H H3]. apply andb_true_iff in H as [H1 H2].
  apply bool_decide_eq_true in H2.
  destruct (running_singles (lines e) H1) as [H4 H5].
  split_and!; [| exact H2 | exact H4 | exact H5 |].
  - apply List.Forall_forall. intros l Hl.
    rewrite forallb_forall in H1. specialize (H1 l Hl).
    apply andb_true_iff in H1 as [Hk Hc%bool_decide_eq_true].
    by split.
  - apply List.Forall_forall. intros argv Ha.
    rewrite forallb_forall in H3. apply known_program, (H3 argv Ha).
Qed.

End ProcFacts.

(** ** The inference cells *)

Section InferenceCells.
Import Kernel.

(** The three inference cells, for every value of [NAME].  The first two
    convert [NAME.wav] and play [NAME.out.wav].  The line of the third
    holds the field [{neutral}], which is no variable of the session: it
    reaches the shell as written, [{NAME}.wav] included, and the cell
    plays [NAME.out.wav] all the same. *)
Lemma inference_cells (e : list Z) :
  ∃ n : Z,
    1 ≤ n ≤ 100 ∧ n = randint 1 100 (hd 0 e) ∧
    Nb.infer_plays (actions e)
    = [ ({| Nb.input := Str.of_Z n +:+ ".wav";
            Nb.model := model_dir +:+ "/";
            Nb.config := model_dir +:+ "/config.json";
            Nb.speaker := None |}, Some (Str.of_Z n +:+ ".out.wav"));
        ({| Nb.input := Str.of_Z n +:+ ".wav";
            Nb.model := "G_riri_220.pth";
            Nb.config := "config.json";
            Nb.speaker := None |}, Some (Str.of_Z n +:+ ".out.wav"));
        ({| Nb.input := "{NAME}.wav";
            Nb.model := "G_166400.pth";
            Nb.config := "config.json";
            Nb.speaker := Some "Pinkie {neutral}" |},
         Some (Str.of_Z n +:+ ".out.wav")) ].
Proof.
  exists (randint 1 100 (hd 0 e)).
  assert (0 ≤ hd 0 e mod 100 < 100) as Hr by (apply Z.mod_pos_bound; lia).
  split; [unfold randint, randbelow; change (100 - 1 + 1) with 100; lia |].
  split; [reflexivity |].
  rewrite <- randint_1_100, (actions_agree e).
  assert (In (Z.to_nat (hd 0 e mod 100)) (seq 0 100)) as Hin
    by (apply in_seq; lia).
  assert (forallb (fun i =>
            let n := randint 1 100 (Z.of_nat i) in
            bool_decide
              (Nb.infer_plays (actions [Z.of_nat i])
               = [ ({| Nb.input := Str.of_Z n +:+ ".wav";
                       Nb.model := model_dir +:+ "/";
                       Nb.config := model_dir +:+ "/config.json";
                       Nb.speaker := None |},
                    Some (Str.of_Z n +:+ ".out.wav"));
                   ({| Nb.input := Str.of_Z n +:+ ".wav";
                       Nb.model := "G_riri_220.pth";
                       Nb.config := "config.json";
                       Nb.speaker := None |},
                    Some (Str.of_Z n +:+ ".out.wav"));
                   ({| Nb.input := "{NAME}.wav";
                       Nb.model := "G_166400.pth";
                       Nb.config := "config.json";
                       Nb.speaker := Some "Pinkie {neutral}" |},
                    Some (Str.of_Z n +:+ ".out.wav")) ]))
          (seq 0 100) = true) as H by (vm_compute; reflexivity).
  rewrite forallb_forall in H. specialize (H _ Hin). cbv beta zeta in H.
  rewrite (Z2Nat.id _ (proj1 Hr)) in H.
  apply bool_decide_eq_true in H. exact H.
Qed.

(** The cells that convert [NAME.wav] play the file [svc infer] writes
    for it. *)
Lemma cells_play_the_output (e : list Z) :
  ∃ c1 p1 c2 p2 rest,
    Nb.infer_plays (actions e) = (c1, Some p1) :: (c2, Some p2) :: rest ∧
    Nb.input c1 = Nb.input c2 ∧ Nb.model c1 ≠ Nb.model c2 ∧
    Svc.output_path (Nb.input c1) = Some p1 ∧
    Svc.output_path (Nb.input c2) = Some p2.
Proof.
  destruct (inference_cells e) as (n & _ & _ & ->).
  do 5 eexists. split; [reflexivity |]. cbn [Nb.input Nb.model].
  split; [reflexivity |]. split; [discriminate |].
  split; apply output_path_wav.
Qed.

(** The run on a fresh machine: every [display(Audio(...))] finds its
    file; the output holds the conversion by the second model, which
    replaced the first; the Drive has the configuration and the last three
    checkpoints of five. *)
Example colab_run :
  let s := Shell.run (Shell.colab 41) in
  Shell.played s
  = [("42.wav", true); ("42.out.wav", true); ("42.out.wav", true);
     ("42.out.wav", true)] ∧
  Shell.tree s !! "/content/42.out.wav"
  = Some (Fs.File Fs.Audio
            "infer(https://github.com/34j/34j/raw/main/jvs-parallel100/42.wav, G_riri_220.pth)") ∧
  Shell.tree s !! "/content/drive/MyDrive/so-vits-svc-fork/config.json"
  = Some (Fs.File Fs.Config "pre-config") ∧
  Svc.checkpoints (Shell.tree s) "/content/drive/MyDrive/so-vits-svc-fork/logs/44k/"
  ≡ₚ [ "/content/drive/MyDrive/so-vits-svc-fork/logs/44k/G_3.pth";
       "/content/drive/MyDrive/so-vits-svc-fork/logs/44k/G_4.pth";
       "/content/drive/MyDrive/so-vits-svc-fork/logs/44k/G_5.pth" ].
Proof.
  cbn zeta. split_and!; try (vm_compute; reflexivity).
  assert (Svc.checkpoints (Shell.tree (Shell.run (Shell.colab 41)))
            "/content/drive/MyDrive/so-vits-svc-fork/logs/44k/"
          = [ "/content/drive/MyDrive/so-vits-svc-fork/logs/44k/G_3.pth";
              "/content/drive/MyDrive/so-vits-svc-fork/logs/44k/G_5.pth";
              "/content/drive/MyDrive/so-vits-svc-fork/logs/44k/G_4.pth" ])
    as -> by (vm_compute; reflexivity).
  apply Permutation_skip, perm_swap.
Qed.

End InferenceCells.

(** ** The theorems at concrete inputs *)

Lemma default_Some {A} (o : option A) (d : A) :
  bool_decide (is_Some o) = true → o = Some (default d o).
Proof. intros [x ->]%bool_decide_eq_true. reflexivity. Defined.

Lemma infer_writes_out_wav_witness :
  Svc.infer "/content" ("42" +:+ ".wav") "G_riri_220.pth" "config.json"
    None Sample.inference
  = Some Sample.converted_riri ∧
  Svc.output_path ("42" +:+ ".wav") = Some ("42" +:+ ".out.wav") ∧
  Fs.is_audio Sample.converted_riri
    (Fs.resolve "/content" ("42" +:+ ".out.wav")) = true ∧
  ∀ p, p ≠ Fs.resolve "/content" ("42" +:+ ".out.wav") →
       Sample.converted_riri !! p = Sample.inference !! p.
Proof.
  assert (Svc.infer "/content" ("42" +:+ ".wav") "G_riri_220.pth"
            "config.json" None Sample.inference
          = Some Sample.converted_riri) as H
    by (apply default_Some; vm_compute; reflexivity).
  split; [exact H |].
  exact (infer_writes_out_wav "/content" "42" "G_riri_220.pth"
           "config.json" None Sample.inference _ H).
Defined.

Lemma infer_overwrites_witness :
  Svc.infer "/content" ("42" +:+ ".wav") "G_riri_220.pth" "config.json"
    None Sample.inference
  = Some Sample.converted_riri ∧
  Svc.infer "/content" ("42" +:+ ".wav") "G_166400.pth" "config.json"
    (Some "Pinkie {neutral}") Sample.converted_riri
  = Some Sample.converted_pinkie ∧
  "G_riri_220.pth" ≠ "G_166400.pth" ∧
  let out := Fs.resolve "/content" ("42" +:+ ".out.wav") in
  let src := Svc.origin_of Sample.inference
               (Fs.resolve "/content" ("42" +:+ ".wav")) in
  Sample.converted_pinkie !! out
  = Some (Fs.File Fs.Audio
            ("infer(" +:+ src +:+ ", " +:+ "G_166400.pth" +:+ ")")) ∧
  Sample.converted_pinkie
  = Fs.write out Fs.Audio
      ("infer(" +:+ src +:+ ", " +:+ "G_166400.pth" +:+ ")")
      Sample.inference ∧
  Sample.converted_pinkie !! out ≠ Sample.converted_riri !! out.
Proof.
  assert (Svc.infer "/content" ("42" +:+ ".wav") "G_riri_220.pth"
            "config.json" None Sample.inference
          = Some Sample.converted_riri) as H1
    by (apply default_Some; vm_compute; reflexivity).
  assert (Svc.infer "/content" ("42" +:+ ".wav") "G_166400.pth"
            "config.json" (Some "Pinkie {neutral}") Sample.converted_riri
          = Some Sample.converted_pinkie) as H2
    by (apply default_Some; vm_compute; reflexivity).
  assert ("G_riri_220.pth" ≠ "G_166400.pth") as Hm by discriminate.
  split; [exact H1 |]. split; [exact H2 |]. split; [exact Hm |].
  destruct (infer_overwrites "/content" "42" "G_riri_220.pth" "config.json"
              "G_166400.pth" "config.json" None (Some "Pinkie {neutral}")
              Sample.inference _ _ H1 H2) as (_ & _ & H3 & H4 & H5).
  cbn zeta. split; [exact H3 |]. split; [exact H4 |]. exact (H5 Hm).
Defined.

Lemma pre_resample_in_place_witness :
  Sample.dataset !! "/content/dataset_raw/44k/kiritan/01.wav"
  = Some (Fs.File Fs.Audio "kiritan 01") ∧
  Str.under (Fs.resolve "/content" Svc.raw_dataset)
    "/content/dataset_raw/44k/kiritan/01.wav" = true ∧
  Svc.pre_resample "/content" Sample.dataset
    !! "/content/dataset_raw/44k/kiritan/01.wav"
  = Some (Fs.File Fs.Audio ("resample(" +:+ "kiritan 01" +:+ ")")) ∧
  dom (Svc.pre_resample "/content" Sample.dataset) = dom Sample.dataset.
Proof.
  assert (Sample.dataset !! "/content/dataset_raw/44k/kiritan/01.wav"
          = Some (Fs.File Fs.Audio "kiritan 01")) as H1
    by (vm_compute; reflexivity).
  assert (Str.under (Fs.resolve "/content" Svc.raw_dataset)
            "/content/dataset_raw/44k/kiritan/01.wav" = true) as H2
    by (vm_compute; reflexivity).
  destruct (pre_resample_in_place "/content" Sample.dataset)
    as (Hd & _ & Ha & _).
  split; [exact H1 |]. split; [exact H2 |].
  split; [exact (Ha _ _ H1 H2) | exact Hd].
Defined.



Lemma train_then_infer_witness :
  (0 < 5)%nat ∧
  Svc.train "/content" "logs/44k" 5 Sample.inference = Some Sample.trained ∧
  Sample.trained !! Svc.checkpoint_path (Fs.resolve "/content" "logs/44k") 5
  = Some (Fs.File Fs.Checkpoint ("generation " +:+ Str.of_nat 5)) ∧
  Fs.is_dir Sample.trained (Fs.resolve "/content" "logs/44k") = true ∧
  Svc.checkpoint_path (Fs.resolve "/content" "logs/44k") 5
  ∈ Svc.checkpoints Sample.trained (Fs.resolve "/content" "logs/44k") ∧
  is_Some (Svc.infer "/content" ("42" +:+ ".wav") "logs/44k" "config.json"
             None Sample.trained).
Proof.
  assert (0 < 5)%nat as H0 by lia.
  assert (Svc.train "/content" "logs/44k" 5 Sample.inference
          = Some Sample.trained) as H
    by (apply default_Some; vm_compute; reflexivity).
  destruct (train_then_infer "/content" "logs/44k" 5 Sample.inference _ H0 H)
    as (Hg & Hd & Hc & Hi).
  split; [exact H0 |]. split; [exact H |].
  split; [apply Hg; lia |]. split; [exact Hd |]. split; [exact Hc |].
  apply Hi. vm_compute. reflexivity.
Defined.



(** * Further properties of the notebook *)

(** * Further properties of the notebook *)

Section EntropyFacts.
Import Kernel.

Lemma of_Z_inj (m n : Z) : Str.of_Z m = Str.of_Z n → m = n.
Proof.
  unfold Str.of_Z. intros E.
  apply (f_equal NilEmpty.int_of_string) in E.
  rewrite !NilEmpty.isi in E. injection E as E.
  apply (f_equal Z.of_int) in E.
  by rewrite !DecimalZ.of_to in E.
Qed.

Lemma randint_range (a b r : Z) : a ≤ b → a ≤ randint a b r ≤ b.
Proof.
  intros H. unfold randint, randbelow.
  pose proof (Z.mod_pos_bound r (b - a + 1)). lia.
Qed.

Lemma randint_onto (a b n : Z) : a ≤ n ≤ b → randint a b (n - a) = n.
Proof.
  intros H. unfold randint, randbelow. rewrite Z.mod_small; lia.
Qed.

(** [NAME] and the source download, for every entropy. *)
Lemma name_of_entropy (e : list Z) :
  NAME e = Some (Str.of_Z (randint 1 100 (hd 0 e))) ∧
  head (Nb.downloads (actions e))
  = Some (Str.of_Z (randint 1 100 (hd 0 e)) +:+ ".wav").
Proof.
  assert (0 ≤ hd 0 e mod 100 < 100) as Hr by (apply Z.mod_pos_bound; lia).
  rewrite <- randint_1_100. unfold NAME.
  rewrite (actions_agree e), (env_agree e).
  assert (In (Z.to_nat (hd 0 e mod 100)) (seq 0 100)) as Hin
    by (apply in_seq; lia).
  assert (forallb (fun i =>
            bool_decide
              (env (final [Z.of_nat i]) !! "NAME"
               = Some (Str.of_Z (randint 1 100 (Z.of_nat i))))
            && bool_decide
              (head (Nb.downloads (actions [Z.of_nat i]))
               = Some (Str.of_Z (randint 1 100 (Z.of_nat i)) +:+ ".wav")))
          (seq 0 100) = true) as H by (vm_compute; reflexivity).
  rewrite forallb_forall in H. specialize (H _ Hin). cbv beta in H.
  rewrite (Z2Nat.id _ (proj1 Hr)) in H.
  apply andb_true_iff in H as [H1 H2].
  apply bool_decide_eq_true in H1. apply bool_decide_eq_true in H2.
  split; assumption.
Qed.

(** X1: every one of the hundred recordings, [1.wav] and [100.wav]
    included, is the source of some run, and a run that names [n] drew
    [n]: different numbers never share a file. *)
Theorem every_source_file_reachable (n : Z) :
  1 ≤ n ≤ 100 →
  (∃ e, NAME e = Some (Str.of_Z n) ∧
        head (Nb.downloads (actions e)) = Some (Str.of_Z n +:+ ".wav")) ∧
  (∀ e, NAME e = Some (Str.of_Z n) → randint 1 100 (hd 0 e) = n).
Proof.
  intros Hn. split.
  - exists [n - 1]. destruct (name_of_entropy [n - 1]) as [H1 H2].
    cbn [hd] in H1, H2. rewrite (randint_onto 1 100 n Hn) in H1, H2.
    split; assumption.
  - intros e He. destruct (name_of_entropy e) as [H1 _].
    rewrite H1 in He. injection He as He. by apply of_Z_inj.
Qed.

End EntropyFacts.

(** ** Filling in the fields of a line *)

Section ExpandFacts.
Import Kernel Form.

Lemma format_go_spec (e : gmap string string) (pending : option string)
    (s : string) :
  format_go e pending s
  = l ← fields_go pending s;
    if forallb (defined e) l then Some (fill_go e pending s) else None.
Proof.
  revert pending. induction s as [|c s IH]; intros pending.
  - by destruct pending.
  - destruct pending as [n|]; cbn [format_go fields_go fill_go].
    + destruct (Ascii.eqb c "}"); [| apply IH].
      rewrite IH. destruct (fields_go None s) as [l|]; simpl.
      * destruct (e !! n) as [v|] eqn:Hn.
        -- assert (defined e n = true) as ->
             by (unfold defined; rewrite Hn; by apply bool_decide_eq_true_2).
           simpl. by destruct (forallb _ _).
        -- assert (defined e n = false) as ->
             by (unfold defined; rewrite Hn; apply bool_decide_eq_false_2;
                 by intros [? ?]).
           done.
      * by destruct (e !! n).
    + destruct (Ascii.eqb c "{"); [apply IH |].
      destruct (Ascii.eqb c "}"); [done |].
      rewrite IH. destruct (fields_go None s) as [l|]; simpl; [| done].
      by destruct (forallb _ _).
Qed.

(** X2: the command of the last inference cell, in any session.  IPython
    fills in a line all or nothing: when [NAME] and [neutral] are both
    defined, the two fields are replaced by their values; when one of
    them is not, the whole line goes to the shell as written, [{NAME}]
    too in a session that has [NAME]. *)
Theorem expand_all_or_nothing (e : gmap string string) :
  match e !! "NAME", e !! "neutral" with
  | Some v, Some u =>
      expand e speaker_line
      = "svc infer " +:+ v +:+ ".wav --speaker " +:+ Str.q +:+ "Pinkie "
        +:+ u +:+ Str.q +:+ " -c config.json -m G_166400.pth"
  | _, _ => expand e speaker_line = speaker_line
  end.
Proof.
  unfold expand. rewrite format_go_spec.
  change (fields_go None speaker_line) with (Some ["NAME"; "neutral"]).
  cbn [mbind option_bind forallb]. unfold defined.
  destruct (e !! "NAME") as [v|] eqn:Hv.
  - destruct (e !! "neutral") as [u|] eqn:Hu.
    + rewrite !bool_decide_eq_true_2 by (by eexists). cbn [andb from_option id].
      change speaker_line
        with ("svc infer {NAME}.wav --speaker " +:+ Str.q
              +:+ "Pinkie {neutral}" +:+ Str.q
              +:+ " -c config.json -m G_166400.pth").
      unfold Str.q. rewrite !append_cons, !append_nil.
      cbn [fill_go Ascii.eqb Bool.eqb].
      change (e !! (((("" +:+ "N") +:+ "A") +:+ "M") +:+ "E"))
        with (e !! "NAME").
      change (e !! ((((((("" +:+ "n") +:+ "e") +:+ "u") +:+ "t") +:+ "r")
                     +:+ "a") +:+ "l"))
        with (e !! "neutral").
      rewrite Hv, Hu.
      cbn [from_option id]. reflexivity.
    + rewrite (bool_decide_eq_false_2 (is_Some None)) by (by intros [? ?]).
      by rewrite andb_false_r.
  - rewrite (bool_decide_eq_false_2 (is_Some None)) by (by intros [? ?]).
    done.
Qed.

End ExpandFacts.

(** ** The cells after the run *)

Section CellFacts.
Import Kernel Form.

(** X3: in every run exactly one command reaches the shell with a field
    left in it, the [svc infer] of the last cell: its input is the literal
    [{NAME}.wav], a file no cell downloads, while the cell goes on to play
    [NAME.out.wav] like the two cells before it. *)
Theorem last_inference_as_written (e : list Z) :
  let name := Str.of_Z (randint 1 100 (hd 0 e)) in
  filter (fun a => unexpanded a) (actions e)
  = [ Sh ["svc"; "infer"; "{NAME}.wav"; "--speaker"; "Pinkie {neutral}";
          "-c"; "config.json"; "-m"; "G_166400.pth"] ] ∧
  ("{NAME}.wav" ∉ Nb.downloads (actions e)) ∧
  plays (actions e)
  = [ (name +:+ ".wav", false); (name +:+ ".out.wav", true);
      (name +:+ ".out.wav", true); (name +:+ ".out.wav", true) ].
Proof.
  cbn zeta.
  assert (0 ≤ hd 0 e mod 100 < 100) as Hr by (apply Z.mod_pos_bound; lia).
  rewrite <- randint_1_100, (actions_agree e).
  assert (In (Z.to_nat (hd 0 e mod 100)) (seq 0 100)) as Hin
    by (apply in_seq; lia).
  assert (forallb (fun i =>
            let name := Str.of_Z (randint 1 100 (Z.of_nat i)) in
            bool_decide
              (filter (fun a => unexpanded a) (actions [Z.of_nat i])
               = [ Sh ["svc"; "infer"; "{NAME}.wav"; "--speaker";
                       "Pinkie {neutral}"; "-c"; "config.json"; "-m";
                       "G_166400.pth"] ])
            && bool_decide
                 ("{NAME}.wav" ∉ Nb.downloads (actions [Z.of_nat i]))
            && bool_decide
                 (plays (actions [Z.of_nat i])
                  = [ (name +:+ ".wav", false); (name +:+ ".out.wav", true);
                      (name +:+ ".out.wav", true);
                      (name +:+ ".out.wav", true) ]))
          (seq 0 100) = true) as H by (vm_compute; reflexivity).
  rewrite forallb_forall in H. specialize (H _ Hin). cbv beta zeta in H.
  rewrite (Z2Nat.id _ (proj1 Hr)) in H.
  apply andb_true_iff in H as [H H3]. apply andb_true_iff in H as [H1 H2].
  apply bool_decide_eq_true in H1. apply bool_decide_eq_true in H2.
  apply bool_decide_eq_true in H3.
  split; [exact H1 |]. split; [exact H2 | exact H3].
Qed.

End CellFacts.

(** ** The form fields *)

Section FormFacts.
Import Kernel Form.

Lemma plain_char_ok (c : ascii) :
  plain_char c = true →
  Ascii.eqb c Str.dquote = false ∧ Ascii.eqb c " " = false.
Proof.
  destruct c as [[] [] [] [] [] [] [] []]; vm_compute; intros H;
    (discriminate H || (split; reflexivity)).
Qed.

(** A string without blanks and quotes goes through word splitting in one
    piece. *)
Lemma words_go_quiet (w rest : string) (cur : option string) :
  quiet w = true → w ≠ "" →
  words_go cur false (w +:+ rest)
  = words_go (Some (default "" cur +:+ w)) false rest.
Proof.
  revert cur. induction w as [|c w IH]; intros cur Hw Hne; [done |].
  simpl in Hw. apply andb_true_iff in Hw as [Hc Hw].
  apply andb_true_iff in Hc as [Hq%negb_true_iff Hb%negb_true_iff].
  rewrite append_cons. cbn [words_go]. rewrite Hq, Hb. cbn [andb].
  destruct w as [|d w].
  - by rewrite append_nil.
  - rewrite IH by done. cbn [from_option id]. by rewrite append_assoc.
Qed.

Lemma words_go_quiet_some (w rest cur : string) :
  quiet w = true →
  words_go (Some cur) false (w +:+ rest)
  = words_go (Some (cur +:+ w)) false rest.
Proof.
  intros Hw. destruct w as [|c w].
  - by rewrite append_nil, append_nil_r.
  - by rewrite words_go_quiet.
Qed.

Lemma plain_quiet (s : string) : plain s = true → quiet s = true.
Proof.
  induction s as [|c s IH]; [done |]. simpl.
  intros [Hc Hs]%andb_true_iff. rewrite IH by done.
  by destruct (plain_char_ok c Hc) as [-> ->].
Qed.

Lemma quiet_app (a b : string) :
  quiet a = true → quiet b = true → quiet (a +:+ b) = true.
Proof.
  intros Ha Hb. induction a as [|c a IH]; [done |].
  rewrite append_cons. simpl in *.
  apply andb_true_iff in Ha as [-> Ha]. by rewrite IH.
Qed.

Lemma format_go_pending (e : gmap string string) (acc x post : string) :
  has_brace x = false →
  format_go e (Some acc) (x +:+ String "}" post)
  = v ← e !! (acc +:+ x); r ← format_go e None post; Some (v +:+ r).
Proof.
  revert acc. induction x as [|c x IH]; intros acc Hx.
  - rewrite append_nil, append_nil_r. done.
  - simpl in Hx. apply orb_false_iff in Hx as [Hc Hx].
    apply orb_false_iff in Hc as [_ Hc].
    rewrite append_cons. cbn [format_go]. rewrite Hc, IH by done.
    by rewrite append_assoc.
Qed.

(** A line with one field, at its end or before a brace-free rest. *)
Lemma format_go_field (e : gmap string string) (pre x v post : string) :
  has_brace pre = false → has_brace x = false → has_brace post = false →
  e !! x = Some v →
  format_go e None (pre +:+ String "{" (x +:+ String "}" post))
  = Some (pre +:+ v +:+ post).
Proof.
  intros Hpre Hx Hpost Hv.
  assert (∀ s, has_brace s = false → format_go e None s = Some s) as Hplain.
  { induction s as [|c s IH]; [done |]. simpl.
    intros [[-> ->]%orb_false_iff Hs]%orb_false_iff. by rewrite IH. }
  induction pre as [|c pre IH].
  - rewrite !append_nil. cbn [format_go]. simpl.
    rewrite format_go_pending by done. rewrite append_nil, Hv. simpl.
    by rewrite Hplain.
  - simpl in Hpre. apply orb_false_iff in Hpre as [Hc Hpre].
    apply orb_false_iff in Hc as [Hc1 Hc2].
    rewrite !append_cons. cbn [format_go]. rewrite Hc1, Hc2, IH by done.
    done.
Qed.

End FormFacts.

Section FormCells.
Import Kernel Form.

Lemma expand_plain (e : gmap string string) (s : string) :
  has_brace s = false → expand e s = s.
Proof.
  intros H. unfold expand.
  assert (format_go e None s = Some s) as ->; [| done].
  induction s as [|c s IH]; [done |]. simpl in *.
  apply orb_false_iff in H as [[-> ->]%orb_false_iff Hs]. by rewrite IH.
Qed.

(** What a shell line, a magic and a form field do to the session. *)
Lemma exec_Shell (cmd : string) (st : state) :
  env (exec (Shell cmd) st) = env st ∧
  out (exec (Shell cmd) st) = out st ++ [Sh (words (expand (env st) cmd))].
Proof. done. Qed.

Lemma exec_Magic (cmd : string) (st : state) :
  env (exec (Magic cmd) st) = env st ∧
  out (exec (Magic cmd) st)
  = out st ++ [LineMagic (words (expand (env st) cmd))].
Proof. simpl. by destruct (pip_line _ _). Qed.

Lemma exec_Param (x v : string) (st : state) :
  env (exec (Param x v) st) = <[x := v]> (env st) ∧
  out (exec (Param x v) st) = out st.
Proof. done. Qed.

Lemma words_pip_install (x : string) :
  quiet x = true → x ≠ "" →
  words ("pip install -U " +:+ x) = ["pip"; "install"; "-U"; x].
Proof.
  intros Hq Hx. unfold words. rewrite !append_cons, append_nil. simpl.
  rewrite <- (append_nil_r x) at 1. rewrite words_go_quiet by done.
  by rewrite append_nil.
Qed.

(** X4: the install cell with any plain value in the form field [BRANCH].
    The field is stored in the session; [none] installs the released
    package, every other value installs the repository at that branch,
    the value appended to the address after [@]. *)
Theorem branch_selects_the_source (b : string) (st : state) :
  plain b = true →
  let st' := exec_cell (set_param_cell "BRANCH" b install_cell) st in
  env st' = <["BRANCH" := b]> (env st) ∧
  out st'
  = out st
    ++ [ Sh ["python"; "-m"; "pip"; "install"; "-U"; "pip"; "wheel"];
         LineMagic ["pip"; "install"; "-U"; "ipython"];
         LineMagic ["pip"; "install"; "-U";
                    if bool_decide (b = "none") then "so-vits-svc-fork"
                    else "git+https://github.com/34j/so-vits-svc-fork.git@"
                         +:+ b] ].
Proof.
  intros Hb. cbn zeta.
  change (set_param_cell "BRANCH" b install_cell)
    with (Code [ Comment "@title Install dependencies";
                 Shell "python -m pip install -U pip wheel";
                 Magic "pip install -U ipython ";
                 Blank;
                 Comment "@markdown Branch (for development)";
                 Param "BRANCH" b;
                 IfEq "BRANCH" "none"
                   (Magic "pip install -U so-vits-svc-fork")
                   (Magic "pip install -U git+https://github.com/34j/so-vits-svc-fork.git@{BRANCH}") ]).
  unfold exec_cell. cbn [run_cell exec_stmts raises].
  change (exec (Comment "@markdown Branch (for development)") ?s) with s.
  change (exec Blank ?s) with s.
  change (exec (Comment "@title Install dependencies") st) with st.
  set (s1 := exec (Shell "python -m pip install -U pip wheel") st).
  set (s2 := exec (Magic "pip install -U ipython ") s1).
  set (s3 := exec (Param "BRANCH" b) s2).
  destruct (exec_Shell "python -m pip install -U pip wheel" st) as [E1 O1].
  destruct (exec_Magic "pip install -U ipython " s1) as [E2 O2].
  destruct (exec_Param "BRANCH" b s2) as [E3 O3].
  fold s1 in E1, O1. fold s2 in E2, O2. fold s3 in E3, O3.
  rewrite !expand_plain in O1, O2 by reflexivity.
  change (words "python -m pip install -U pip wheel")
    with ["python"; "-m"; "pip"; "install"; "-U"; "pip"; "wheel"] in O1.
  change (words "pip install -U ipython ")
    with ["pip"; "install"; "-U"; "ipython"] in O2.
  assert (env s3 !! "BRANCH" = Some b) as Hl
    by (rewrite E3; apply lookup_insert_eq).
  rewrite Hl. rewrite (Tauto.if_same (bool_decide (b = "none")) false).
  cbn [fst].
  change (exec (IfEq ?x ?v ?t ?e) s3)
    with (if bool_decide (env s3 !! x = Some v)
          then exec t s3 else exec e s3).
  rewrite Hl.
  assert (env s3 = <["BRANCH" := b]> (env st)) as E by congruence.
  assert (out s3
          = out st ++ [Sh ["python"; "-m"; "pip"; "install"; "-U"; "pip"; "wheel"];
                       LineMagic ["pip"; "install"; "-U"; "ipython"]]) as O.
  { rewrite O3, O2, O1, <- app_assoc. done. }
  clearbody s3. clear s1 s2 E1 E2 E3 O1 O2 O3.
  case_bool_decide as Hn.
  - injection Hn as ->. rewrite bool_decide_eq_true_2 by done.
    destruct (exec_Magic "pip install -U so-vits-svc-fork" s3) as [-> ->].
    split; [done |]. rewrite O, <- app_assoc.
    rewrite expand_plain by reflexivity. done.
  - rewrite bool_decide_eq_false_2 by congruence.
    destruct (exec_Magic "pip install -U git+https://github.com/34j/so-vits-svc-fork.git@{BRANCH}" s3)
      as [-> ->].
    split; [done |]. rewrite O, <- app_assoc. cbn [app]. do 4 f_equal.
    unfold expand.
    change "pip install -U git+https://github.com/34j/so-vits-svc-fork.git@{BRANCH}"
      with ("pip install -U git+https://github.com/34j/so-vits-svc-fork.git@"
            +:+ String "{" ("BRANCH" +:+ String "}" "")).
    rewrite (format_go_field _ _ "BRANCH" b "") by (reflexivity || exact Hl).
    cbn [from_option id]. rewrite append_nil_r.
    change ("pip install -U git+https://github.com/34j/so-vits-svc-fork.git@" +:+ b)
      with ("pip install -U "
            +:+ "git+https://github.com/34j/so-vits-svc-fork.git@" +:+ b).
    rewrite words_pip_install; [done | |].
    + apply quiet_app; [reflexivity | by apply plain_quiet].
    + discriminate.
Qed.

Lemma words_cp (w : string) :
  quiet w = true → w ≠ "" →
  words ("cp -R " +:+ w +:+ " -t " +:+ Str.q +:+ "dataset_raw/44k/" +:+ Str.q)
  = ["cp"; "-R"; w; "-t"; "dataset_raw/44k/"].
Proof.
  intros Hq Hw. unfold words. rewrite !append_cons, append_nil. simpl.
  by rewrite words_go_quiet.
Qed.

(** X5: whatever plain name the form field [DATASET_NAME] holds, the copy
    cell runs one [cp -R] from the Drive folder [dataset/<name>/] into
    [dataset_raw/44k/]. *)
Theorem dataset_name_selects_the_folder (d : string) (st : state) :
  plain d = true →
  let st' := exec_cell (set_param_cell "DATASET_NAME" d copy_cell) st in
  env st' = <["DATASET_NAME" := d]> (env st) ∧
  out st'
  = out st
    ++ [ Sh ["cp"; "-R";
             "/content/drive/MyDrive/so-vits-svc-fork/dataset/" +:+ d +:+ "/";
             "-t"; "dataset_raw/44k/"] ].
Proof.
  intros Hd. cbn zeta.
  change (set_param_cell "DATASET_NAME" d copy_cell)
    with (Code [ Comment "@title Copy your dataset";
                 Param "DATASET_NAME" d;
                 Shell ("cp -R /content/drive/MyDrive/so-vits-svc-fork/dataset/{DATASET_NAME}/ -t "
                        +:+ Str.q +:+ "dataset_raw/44k/" +:+ Str.q) ]).
  unfold exec_cell. cbn [run_cell exec_stmts raises fst exec].
  cbn [env emit hand assign out].
  split; [done |]. do 3 f_equal. unfold expand.
  change ("cp -R /content/drive/MyDrive/so-vits-svc-fork/dataset/{DATASET_NAME}/ -t "
          +:+ Str.q +:+ "dataset_raw/44k/" +:+ Str.q)
    with ("cp -R /content/drive/MyDrive/so-vits-svc-fork/dataset/"
          +:+ String "{" ("DATASET_NAME" +:+ String "}"
                ("/ -t " +:+ Str.q +:+ "dataset_raw/44k/" +:+ Str.q))).
  rewrite (format_go_field _ _ "DATASET_NAME" d)
    by (reflexivity || apply lookup_insert_eq).
  cbn [from_option id].
  rewrite <- (words_cp ("/content/drive/MyDrive/so-vits-svc-fork/dataset/"
                        +:+ d +:+ "/")).
  - apply (f_equal words). unfold Str.q.
    rewrite !append_assoc, !append_cons, !append_nil. reflexivity.
  - apply quiet_app; [reflexivity |].
    apply quiet_app; [by apply plain_quiet | reflexivity].
  - discriminate.
Qed.

(** X6: a blank in the name breaks the cell: word splitting cuts the path
    in two, and [cp] is given two sources, neither of them the folder. *)
Theorem dataset_name_with_blank (a b : string) (st : state) :
  plain a = true → plain b = true → b ≠ "" →
  out (exec_cell (set_param_cell "DATASET_NAME" (a +:+ " " +:+ b) copy_cell) st)
  = out st
    ++ [ Sh ["cp"; "-R";
             "/content/drive/MyDrive/so-vits-svc-fork/dataset/" +:+ a;
             b +:+ "/"; "-t"; "dataset_raw/44k/"] ].
Proof.
  intros Ha Hb Hne.
  change (set_param_cell "DATASET_NAME" (a +:+ " " +:+ b) copy_cell)
    with (Code [ Comment "@title Copy your dataset";
                 Param "DATASET_NAME" (a +:+ " " +:+ b);
                 Shell ("cp -R /content/drive/MyDrive/so-vits-svc-fork/dataset/{DATASET_NAME}/ -t "
                        +:+ Str.q +:+ "dataset_raw/44k/" +:+ Str.q) ]).
  unfold exec_cell. cbn [run_cell exec_stmts raises fst exec].
  cbn [env emit hand assign out].
  do 3 f_equal. unfold expand.
  change ("cp -R /content/drive/MyDrive/so-vits-svc-fork/dataset/{DATASET_NAME}/ -t "
          +:+ Str.q +:+ "dataset_raw/44k/" +:+ Str.q)
    with ("cp -R /content/drive/MyDrive/so-vits-svc-fork/dataset/"
          +:+ String "{" ("DATASET_NAME" +:+ String "}"
                ("/ -t " +:+ Str.q +:+ "dataset_raw/44k/" +:+ Str.q))).
  rewrite (format_go_field _ _ "DATASET_NAME" (a +:+ " " +:+ b))
    by (reflexivity || apply lookup_insert_eq).
  cbn [from_option id]. unfold words, Str.q.
  rewrite !append_assoc, !append_cons, !append_nil. simpl.
  rewrite words_go_quiet_some by (by apply plain_quiet).
  cbn [words_go]. simpl.
  rewrite words_go_quiet by (by apply plain_quiet || done).
  simpl. reflexivity.
Qed.

End FormCells.

(** ** Directories and copies *)

Section CopyFacts.
Import Fs Shell.

Lemma strip_prefix_Some (a s r : string) :
  Str.strip_prefix a s = Some r → s = a +:+ r.
Proof.
  revert s. induction a as [|x a IH]; intros s; simpl.
  - by intros [= ->].
  - destruct s as [|y s]; [done |].
    destruct (Ascii.eqb_spec x y) as [->|_]; [| done].
    intros H%IH. by rewrite append_cons, H.
Qed.

Lemma normalize_idem (s : string) :
  Str.normalize (Str.normalize s) = Str.normalize s.
Proof.
  induction s as [|c s IH]; [done |]. cbn [Str.normalize].
  destruct (Str.normalize s) as [|d r] eqn:Hs.
  - destruct (Ascii.eqb c "/") eqn:Hc; [done |]. simpl. by rewrite Hc.
  - cbn [Str.normalize]. cbn [Str.normalize] in IH.
    by destruct (Str.normalize r); rewrite IH.
Qed.

Lemma mkdir_fold_other (l : list string) (t t' : gmap string node) (q : string) :
  foldl mkdir_step (Some t) l = Some t' → q ∉ l → t' !! q = t !! q.
Proof.
  revert t. induction l as [|d l IH]; intros t; simpl.
  - by intros [= <-].
  - intros H Hq. apply not_elem_of_cons in Hq as [Hqd Hq].
    destruct (t !! d) as [[|k o]|] eqn:Hd.
    + by apply IH.
    + by rewrite mkdir_step_None in H.
    + rewrite (IH _ H Hq). by rewrite lookup_insert_ne.
Qed.


Lemma mkdir_fold_fails (l : list string) (t : gmap string node) :
  foldl mkdir_step (Some t) l = None ↔
  ∃ d k o, d ∈ l ∧ t !! d = Some (File k o).
Proof.
  revert t. induction l as [|d l IH]; intros t; simpl.
  - split; [done | by intros (? & ? & ? & ?%elem_of_nil & _)].
  - destruct (t !! d) as [[|k o]|] eqn:Hd.
    + rewrite IH. split.
      * intros (d' & k & o & Hin & Hf). exists d', k, o. split; [by right | done].
      * intros (d' & k & o & [->|Hin]%elem_of_cons & Hf); [congruence |].
        by exists d', k, o.
    + rewrite mkdir_step_None. split; [intros _ | done].
      exists d, k, o. split; [by left | done].
    + rewrite IH. split.
      * intros (d' & k & o & Hin & Hf). exists d', k, o. split; [by right |].
        destruct (decide (d' = d)) as [->|Hne].
        -- by rewrite lookup_insert_eq in Hf.
        -- by rewrite lookup_insert_ne in Hf.
      * intros (d' & k & o & [->|Hin]%elem_of_cons & Hf); [congruence |].
        exists d', k, o. split; [done |].
        rewrite lookup_insert_ne; [done |]. intros ->. congruence.
Qed.


(** The fold of [cp -R] over the entries of the tree. *)
Lemma cp_fold (s d : string) (t0 m : gmap string node) :
  let f := fun (p : string) (n : node) (acc : gmap string node) =>
             match Str.strip_prefix s p with
             | Some rel =>
                 if bool_decide (rel = "") || Str.starts_with "/" rel
                 then <[d +:+ rel := n]> acc
                 else acc
             | None => acc
             end in
  (∀ rel n, m !! (s +:+ rel) = Some n →
            bool_decide (rel = "") || Str.starts_with "/" rel = true →
            map_fold f t0 m !! (d +:+ rel) = Some n) ∧
  (∀ q, (∀ rel, q ≠ d +:+ rel) → map_fold f t0 m !! q = t0 !! q).
Proof.
  intros f.
  apply (map_fold_weak_ind
    (fun acc m =>
       (∀ rel n, m !! (s +:+ rel) = Some n →
                 bool_decide (rel = "") || Str.starts_with "/" rel = true →
                 acc !! (d +:+ rel) = Some n) ∧
       (∀ q, (∀ rel, q ≠ d +:+ rel) → acc !! q = t0 !! q))).
  - split; [by intros rel n ?%lookup_empty_Some | done].
  - intros i x m' r Hi [IH1 IH2]. split.
    + intros rel n Hl Hok. unfold f.
      destruct (decide (i = s +:+ rel)) as [->|Hne].
      * rewrite lookup_insert_eq in Hl. injection Hl as ->.
        rewrite strip_prefix_app, Hok. apply lookup_insert_eq.
      * rewrite lookup_insert_ne in Hl by done.
        destruct (Str.strip_prefix s i) as [rel'|] eqn:Hs; [| by apply IH1].
        destruct (bool_decide (rel' = "") || Str.starts_with "/" rel');
          [| by apply IH1].
        rewrite lookup_insert_ne; [by apply IH1 |].
        intros E%String.app_inj. subst rel'.
        apply strip_prefix_Some in Hs. done.
    + intros q Hq. unfold f.
      destruct (Str.strip_prefix s i) as [rel'|]; [| by apply IH2].
      destruct (bool_decide (rel' = "") || Str.starts_with "/" rel');
        [| by apply IH2].
      rewrite lookup_insert_ne; [by apply IH2 |]. intros E. by apply (Hq rel').
Qed.

(** [cp -R] of a directory, by cases. *)
Lemma cp_tree_dir (cwd src dst : string) (t : gmap string node) :
  let s := Str.normalize (resolve cwd src) in
  let d := Str.normalize (resolve cwd dst) +:+ "/" +:+ Str.basename s in
  src ≠ "" → dst ≠ "" →
  t !! s = Some Dir →
  is_dir t (resolve cwd dst) = true →
  cp_tree cwd src dst t
  = if bool_decide (d = s) || Str.under s d then None
    else if bool_decide
              (map_Forall (fun p n => in_the_way s d t p n = false) t)
    then Some (map_fold (fun p n acc =>
                 match Str.strip_prefix s p with
                 | Some rel =>
                     if bool_decide (rel = "") || Str.starts_with "/" rel
                     then <[d +:+ rel := n]> acc
                     else acc
                 | None => acc
                 end) t t)
    else None.
Proof.
  cbn zeta. intros Hsrc Hdst Hs Hd. unfold cp_tree.
  rewrite (proj2 (String.eqb_neq src "")), (proj2 (String.eqb_neq dst ""))
    by done.
  rewrite Hd. cbn [orb negb].
  assert (entry t (resolve cwd src) = Some Dir) as ->; [| done].
  unfold entry. by case_bool_decide.
Qed.

Lemma cp_tree_spec (cwd src dst : string) (t : gmap string node) :
  let s := Str.normalize (resolve cwd src) in
  let d := Str.normalize (resolve cwd dst) +:+ "/" +:+ Str.basename s in
  src ≠ "" → dst ≠ "" →
  t !! s = Some Dir →
  is_dir t (resolve cwd dst) = true →
  (d ≠ s → Str.under s d = false →
   (∀ rel n, t !! (s +:+ rel) = Some n →
             bool_decide (rel = "") || Str.starts_with "/" rel = true →
             clash n (t !! (d +:+ rel)) = false) →
   ∃ t',
     cp_tree cwd src dst t = Some t' ∧
     (∀ rel n, t !! (s +:+ "/" +:+ rel) = Some n →
               t' !! (d +:+ "/" +:+ rel) = Some n) ∧
     t' !! d = Some Dir ∧
     (∀ q, (∀ rel, q ≠ d +:+ rel) → t' !! q = t !! q)) ∧
  (d = s ∨ Str.under s d = true → cp_tree cwd src dst t = None) ∧
  (∀ k o, t !! d = Some (File k o) → cp_tree cwd src dst t = None).
Proof.
  cbn zeta. intros Hsrc Hdst Hs Hd.
  rewrite (cp_tree_dir cwd src dst t Hsrc Hdst Hs Hd).
  set (s := Str.normalize (resolve cwd src)) in *.
  set (d := Str.normalize (resolve cwd dst) +:+ "/" +:+ Str.basename s) in *.
  split_and!.
  - intros Hne Hun Hfree.
    rewrite bool_decide_eq_false_2 by done. rewrite Hun. cbn [orb].
    rewrite bool_decide_eq_true_2.
    + eexists. split; [reflexivity |].
      destruct (cp_fold s d t t) as [H1 H2].
      split_and!; try done.
      * intros rel n Hn. apply (H1 ("/" +:+ rel) n Hn).
        change ("/" +:+ rel) with (String "/" rel).
        by rewrite starts_with_char, orb_true_r.
      * specialize (H1 "" Dir). rewrite !append_nil_r in H1. by apply H1.
    + intros p n Hp. unfold in_the_way.
      destruct (Str.strip_prefix s p) as [rel|] eqn:Hrel; [| done].
      apply strip_prefix_Some in Hrel as ->.
      destruct (bool_decide (rel = "") || Str.starts_with "/" rel) eqn:Hok;
        [| done].
      cbn [andb]. by apply Hfree.
  - intros [->|Hun].
    + by rewrite bool_decide_eq_true_2.
    + rewrite Hun. by rewrite orb_true_r.
  - intros k o Hf.
    destruct (bool_decide (d = s) || Str.under s d); [done |].
    rewrite bool_decide_eq_false_2; [done |].
    intros H. specialize (H s Dir Hs). unfold in_the_way in H.
    rewrite <- (append_nil_r s) in H at 2.
    rewrite strip_prefix_app, append_nil_r, Hf in H. done.
Qed.


Lemma normalize_app (a b : string) :
  Str.normalize b ≠ "" → Str.normalize (a +:+ b) = a +:+ Str.normalize b.
Proof.
  intros Hb. induction a as [|c a IH]; [done |].
  rewrite !append_cons. cbn [Str.normalize]. rewrite IH.
  destruct a; [by destruct (Str.normalize b) | done].
Qed.

Lemma normalize_name (name : string) :
  Str.has_slash name = false →
  Str.normalize name = name ∧ Str.normalize (name +:+ "/") = name.
Proof.
  induction name as [|c s IH]; [done |]. cbn [Str.has_slash].
  intros [Hc Hs]%orb_false_iff. destruct (IH Hs) as [IH1 IH2].
  rewrite append_cons. cbn [Str.normalize]. rewrite IH1, IH2.
  destruct s; by rewrite ?Hc.
Qed.

Lemma dataset_copy_spec (saves : nat) (name : string)
    (t t1 : gmap string node) :
  let folder := "/content/drive/MyDrive/so-vits-svc-fork/dataset/" +:+ name in
  name ≠ "" → Str.has_slash name = false →
  name ≠ "." → name ≠ ".." →
  exec saves "/content" ["mkdir"; "-p"; "dataset_raw/44k"] t = Some t1 →
  is_dir t1 folder = true →
  (∀ rel, bool_decide (rel = "") || Str.starts_with "/" rel = true →
          t1 !! ("/content/dataset_raw/44k/" +:+ name +:+ rel) = None) →
  ∃ t2,
    exec saves "/content"
      ["cp"; "-R"; folder +:+ "/"; "-t"; "dataset_raw/44k/"] t1 = Some t2 ∧
    (∀ rel n, t1 !! (folder +:+ "/" +:+ rel) = Some n →
              t2 !! ("/content/dataset_raw/44k/" +:+ name +:+ "/" +:+ rel)
              = Some n) ∧
    t2 !! ("/content/dataset_raw/44k/" +:+ name) = Some Dir ∧
    (∀ q, (∀ rel, q ≠ "/content/dataset_raw/44k/" +:+ name +:+ rel) →
          t2 !! q = t1 !! q).
Proof.
  cbn zeta. intros Hne Hsl _ _.
  change (exec saves "/content" ["mkdir"; "-p"; "dataset_raw/44k"] t)
    with (mkdir_p "/content/dataset_raw/44k" t).
  intros [Hmk _]%mkdir_p_spec Hdir Hfree.
  set (folder := "/content/drive/MyDrive/so-vits-svc-fork/dataset/" +:+ name)
    in *.
  change (exec saves "/content"
            ["cp"; "-R"; folder +:+ "/"; "-t"; "dataset_raw/44k/"])
    with (cp_tree "/content" (folder +:+ "/") "dataset_raw/44k/").
  destruct (normalize_name name Hsl) as [Hn1 Hn2].
  assert (resolve "/content" (folder +:+ "/") = folder +:+ "/") as Hres.
  { unfold resolve, folder. rewrite !append_cons, starts_with_char. done. }
  assert (Str.normalize (folder +:+ "/") = folder) as Hnorm.
  { unfold folder. rewrite append_assoc, normalize_app; rewrite Hn2; done. }
  assert (Str.normalize folder = folder) as Hnorm'.
  { unfold folder. rewrite normalize_app; rewrite Hn1; done. }
  assert (Str.basename folder = name) as Hbase.
  { unfold folder.
    change "/content/drive/MyDrive/so-vits-svc-fork/dataset/"
      with ("/content/drive/MyDrive/so-vits-svc-fork/dataset" +:+ "/").
    rewrite append_assoc. apply basename_child.
    done. }
  assert (t1 !! folder = Some Dir) as Hfolder.
  { unfold is_dir in Hdir. apply bool_decide_eq_true in Hdir.
    unfold entry in Hdir. rewrite Hnorm' in Hdir.
    rewrite bool_decide_eq_false_2 in Hdir; [done |].
    unfold folder. rewrite !append_cons. discriminate. }
  destruct (cp_tree_spec "/content" (folder +:+ "/") "dataset_raw/44k/" t1)
    as (Hok & _ & _).
  - unfold folder. rewrite !append_cons. discriminate.
  - discriminate.
  - by rewrite Hres, Hnorm.
  - unfold is_dir. apply bool_decide_eq_true_2. exact Hmk.
  - rewrite Hres, Hnorm, Hbase in Hok.
    change (Str.normalize (resolve "/content" "dataset_raw/44k/"))
      with "/content/dataset_raw/44k" in Hok.
    destruct Hok as (t2 & H2 & Hcopy & Hroot & Hframe).
    + unfold folder. rewrite !append_cons. discriminate.
    + unfold Str.under, Str.starts_with. rewrite Hnorm'.
      apply bool_decide_eq_false_2. unfold folder.
      rewrite !append_cons. cbn [Str.strip_prefix].
      change (Ascii.eqb "r" "a") with false.
      repeat (rewrite Ascii.eqb_refl || cbn [Str.strip_prefix]).
      by intros [? ?].
    + intros rel n _ Hrel.
      change ("/content/dataset_raw/44k" +:+ "/" +:+ name)
        with ("/content/dataset_raw/44k/" +:+ name).
      rewrite append_assoc, Hfree by done. by destruct n.
    + exists t2. split; [exact H2 |]. split_and!.
      * intros rel n Hn. specialize (Hcopy rel n Hn).
        by rewrite !append_assoc in Hcopy.
      * exact Hroot.
      * intros q Hq. apply Hframe. intros rel.
        rewrite !append_assoc. apply Hq.
Qed.


End CopyFacts.

(** ** The working directory *)

Section CwdFacts.
Import Kernel Form Fs Shell.

Lemma cwd_step (w : world) (s : session) (a : action) :
  stays a = true → cwd (step w s a) = cwd s.
Proof.
  destruct a as [argv|argv|m|p b]; simpl; try done.
  destruct argv as [|m [|d [|]]]; try done.
  intros H%negb_true_iff. by rewrite H.
Qed.

Lemma cwd_sessions (w : world) (l : list action) (s : session) :
  forallb stays l = true →
  Forall (fun s' => cwd s' = cwd s) (sessions w s l).
Proof.
  revert s. induction l as [|a l IH]; intros s Hl; simpl; [done |].
  simpl in Hl. apply andb_true_iff in Hl as [Ha Hl].
  pose proof (cwd_step w s a Ha) as Hc.
  constructor; [done |]. rewrite <- Hc. by apply IH.
Qed.

Lemma sessions_app (w : world) (l1 l2 : list action) (s : session) :
  sessions w s (l1 ++ l2)
  = sessions w s l1 ++ sessions w (foldl (step w) s l1) l2.
Proof.
  revert s. induction l1 as [|a l1 IH]; intros s; simpl; [done |].
  by rewrite IH.
Qed.

(** The actions up to [%cd ./content], and none after it. *)
Lemma actions_around_cd (e : list Z) :
  ∃ rest,
    actions e
    = [ Sh ["nvidia-smi"];
        Sh ["python"; "-m"; "pip"; "install"; "-U"; "pip"; "wheel"];
        LineMagic ["pip"; "install"; "-U"; "ipython"];
        LineMagic ["pip"; "install"; "-U"; "so-vits-svc-fork"];
        Mount "/content/drive";
        LineMagic ["cd"; "./content"] ] ++ rest ∧
    forallb stays rest = true.
Proof.
  exists (drop 6 (actions e)).
  pose proof (for_all_entropy
    (fun _ l =>
       bool_decide
         (take 6 l
          = [ Sh ["nvidia-smi"];
              Sh ["python"; "-m"; "pip"; "install"; "-U"; "pip"; "wheel"];
              LineMagic ["pip"; "install"; "-U"; "ipython"];
              LineMagic ["pip"; "install"; "-U"; "so-vits-svc-fork"];
              Mount "/content/drive";
              LineMagic ["cd"; "./content"] ])
       && forallb stays (drop 6 l))) as H.
  specialize (H ltac:(vm_compute; reflexivity) e). cbv beta in H.
  apply andb_true_iff in H as [H1 H2]. apply bool_decide_eq_true in H1.
  split; [| exact H2]. rewrite <- H1. symmetry. apply take_drop.
Qed.

Lemma mount_other (m q : string) (drive t : gmap string node) :
  q ∉ ancestors m → (∀ k, q ≠ (m +:+ "/") +:+ k) →
  mount m drive t !! q = t !! q.
Proof.
  intros Hq Hk. unfold mount. rewrite lookup_union.
  assert (kmap (String.append (m +:+ "/")) drive !! q = None) as ->.
  { apply lookup_kmap_None; [apply _ |]. intros k Hqk. by destruct (Hk k). }
  rewrite (right_id None _).
  destruct (mkdir_p m t) as [t'|] eqn:Hmk; [| done]. simpl.
  by apply (mkdir_fold_other _ _ _ _ Hmk).
Qed.

(** X10: on a machine that starts in [/content] and has no directory
    [/content/content], [%cd ./content] fails and no cell ever changes the
    working directory: every relative path of the notebook is read against
    [/content], so [drive/MyDrive/...] is the Drive mounted at
    [/content/drive]. *)
Theorem working_directory_stays (w : world) :
  w_cwd w = "/content" →
  w_tree w !! "/content/content" ≠ Some Dir →
  Forall (fun s => cwd s = "/content") (trace w).
Proof.
  intros Hcwd Htree.
  unfold trace. destruct (actions_around_cd (w_entropy w)) as (rest & -> & Hr).
  rewrite sessions_app.
  set (s0 := start w).
  assert (cwd s0 = "/content") as H0 by done.
  assert (tree s0 = w_tree w) as Ht0 by done.
  clearbody s0.
  set (s1 := step w s0 (Sh ["nvidia-smi"])).
  set (s2 := step w s1 (Sh ["python"; "-m"; "pip"; "install"; "-U"; "pip"; "wheel"])).
  set (s3 := step w s2 (LineMagic ["pip"; "install"; "-U"; "ipython"])).
  set (s4 := step w s3 (LineMagic ["pip"; "install"; "-U"; "so-vits-svc-fork"])).
  set (s5 := step w s4 (Mount "/content/drive")).
  set (s6 := step w s5 (LineMagic ["cd"; "./content"])).
  assert (cwd s1 = "/content" ∧ tree s1 = w_tree w) as [H1 Ht1].
  { split; [by rewrite <- H0 | by rewrite <- Ht0]. }
  assert (cwd s2 = "/content" ∧ tree s2 = w_tree w) as [H2 Ht2].
  { split; [by rewrite <- H1 | by rewrite <- Ht1]. }
  assert (cwd s3 = "/content" ∧ tree s3 = w_tree w) as [H3 Ht3].
  { split; [by rewrite <- H2 | by rewrite <- Ht2]. }
  assert (cwd s4 = "/content" ∧ tree s4 = w_tree w) as [H4 Ht4].
  { split; [by rewrite <- H3 | by rewrite <- Ht3]. }
  assert (cwd s5 = "/content"
          ∧ tree s5 = mount "/content/drive" (w_drive w) (w_tree w))
    as [H5 Ht5].
  { split; [by rewrite <- H4 | by rewrite <- Ht4]. }
  assert (is_dir (tree s5) (resolve (cwd s5) "./content") = false) as Hno.
  { rewrite H5, Ht5.
    change (resolve "/content" "./content") with "/content/content".
    unfold is_dir, entry.
    change (Str.normalize "/content/content") with "/content/content".
    rewrite (bool_decide_eq_false_2 ("/content/content" = "")) by done.
    apply bool_decide_eq_false_2. rewrite mount_other; [done | |].
    - vm_compute. intros H. repeat (apply elem_of_cons in H as [H|H];
        [discriminate H |]). by apply elem_of_nil in H.
    - intros k. change ("/content/drive" +:+ "/") with "/content/drive/".
      rewrite !append_cons. discriminate. }
  assert (s6 = s5) as H6.
  { unfold s6. cbn [step]. 
    change (String.eqb "cd" "cd") with true. cbn [andb]. by rewrite Hno. }
  cbn [sessions foldl app]. fold s1 s2 s3 s4 s5 s6.
  assert (cwd s6 = "/content") as H6' by (by rewrite H6).
  repeat (constructor; [assumption |]).
  clearbody s6. rewrite <- H6'. by apply cwd_sessions.
Qed.

End CwdFacts.

(** ** A cell that reads [NAME] *)

Section NameFacts.
Import Kernel Form.








End NameFacts.

(** ** From the Drive to [dataset_raw] *)

Section DriveFacts.
Import Kernel Form Fs Shell.

(** The actions up to the copy of the dataset. *)
Lemma actions_to_copy (e : list Z) :
  ∃ rest,
    actions e
    = [ Sh ["nvidia-smi"];
        Sh ["python"; "-m"; "pip"; "install"; "-U"; "pip"; "wheel"];
        LineMagic ["pip"; "install"; "-U"; "ipython"];
        LineMagic ["pip"; "install"; "-U"; "so-vits-svc-fork"];
        Mount "/content/drive";
        LineMagic ["cd"; "./content"];
        Sh ["mkdir"; "-p"; "dataset_raw/44k"];
        Sh ["cp"; "-R";
            "/content/drive/MyDrive/so-vits-svc-fork/dataset/kiritan/";
            "-t"; "dataset_raw/44k/"] ] ++ rest.
Proof.
  exists (drop 8 (actions e)).
  pose proof (for_all_entropy
    (fun _ l =>
       bool_decide
         (take 8 l
          = [ Sh ["nvidia-smi"];
              Sh ["python"; "-m"; "pip"; "install"; "-U"; "pip"; "wheel"];
              LineMagic ["pip"; "install"; "-U"; "ipython"];
              LineMagic ["pip"; "install"; "-U"; "so-vits-svc-fork"];
              Mount "/content/drive";
              LineMagic ["cd"; "./content"];
              Sh ["mkdir"; "-p"; "dataset_raw/44k"];
              Sh ["cp"; "-R";
                  "/content/drive/MyDrive/so-vits-svc-fork/dataset/kiritan/";
                  "-t"; "dataset_raw/44k/"] ]))) as H.
  specialize (H ltac:(vm_compute; reflexivity) e). cbv beta in H.
  apply bool_decide_eq_true in H.
  rewrite <- H. symmetry. apply take_drop.
Qed.

Lemma ancestors_drive :
  ancestors "/content/drive" = ["/content"; "/content/drive"].
Proof. reflexivity. Qed.

Lemma ancestors_raw :
  ancestors "/content/dataset_raw/44k"
  = ["/content"; "/content/dataset_raw"; "/content/dataset_raw/44k"].
Proof. reflexivity. Qed.

(** Mounting hides nothing the machine has. *)
Lemma mount_keeps (m q : string) (n : node) (drive t : gmap string node) :
  t !! q = Some n → mount m drive t !! q = Some n.
Proof.
  intros Hq. unfold mount. apply lookup_union_Some_l.
  destruct (mkdir_p m t) as [t'|] eqn:Hmk; [| exact Hq]. simpl.
  by apply (mkdir_p_spec _ _ _ Hmk).
Qed.

(** What is on the Drive is seen below the mount point, where the machine
    has nothing of its own. *)
Lemma mount_drive (k : string) (drive t : gmap string node) :
  t !! ("/content/drive/" +:+ k) = None →
  mount "/content/drive" drive t !! ("/content/drive/" +:+ k) = drive !! k.
Proof.
  intros Hk. unfold mount. rewrite lookup_union.
  assert (default t (mkdir_p "/content/drive" t) !! ("/content/drive/" +:+ k)
          = None) as ->.
  { destruct (mkdir_p "/content/drive" t) as [t'|] eqn:Hmk; [| exact Hk].
    simpl. rewrite <- Hk. apply (mkdir_fold_other _ _ _ _ Hmk).
    rewrite ancestors_drive, !append_cons. intros H.
    repeat (apply elem_of_cons in H as [H|H]; [discriminate H |]).
    by apply elem_of_nil in H. }
  rewrite (left_id None _).
  change ("/content/drive" +:+ "/") with "/content/drive/".
  apply (lookup_kmap (String.append "/content/drive/")).
Qed.

(** X12: from the mount to the copy.  On a machine that starts in an empty
    [/content], with a Drive that holds the folder
    [so-vits-svc-fork/dataset/kiritan], the eighth action of the run is the
    copy of the dataset, and after it every entry of that Drive folder is
    found below [/content/dataset_raw/44k/kiritan/]: the absolute path of
    the copy cell and the mount point of the mount cell agree. *)
Theorem drive_dataset_reaches_raw (w : world) :
  w_cwd w = "/content" →
  w_tree w !! "/content" = Some Dir →
  (∀ k, w_tree w !! ("/content/" +:+ k) = None) →
  w_drive w !! "MyDrive/so-vits-svc-fork/dataset/kiritan" = Some Dir →
  ∃ s,
    trace w !! 7%nat = Some s ∧
    actions (w_entropy w) !! 7%nat
    = Some (Sh ["cp"; "-R";
                "/content/drive/MyDrive/so-vits-svc-fork/dataset/kiritan/";
                "-t"; "dataset_raw/44k/"]) ∧
    ∀ rel n,
      w_drive w !! ("MyDrive/so-vits-svc-fork/dataset/kiritan/" +:+ rel)
      = Some n →
      tree s !! ("/content/dataset_raw/44k/kiritan/" +:+ rel) = Some n.
Proof.
  intros Hcwd Hroot Hempty Hdrive.
  unfold trace. destruct (actions_to_copy (w_entropy w)) as (rest & ->).
  set (s0 := start w).
  assert (cwd s0 = "/content") as H0 by done.
  assert (tree s0 = w_tree w) as Ht0 by done.
  clearbody s0.
  cbn [sessions app].
  set (s1 := step w s0 (Sh ["nvidia-smi"])).
  set (s2 := step w s1 (Sh ["python"; "-m"; "pip"; "install"; "-U"; "pip"; "wheel"])).
  set (s3 := step w s2 (LineMagic ["pip"; "install"; "-U"; "ipython"])).
  set (s4 := step w s3 (LineMagic ["pip"; "install"; "-U"; "so-vits-svc-fork"])).
  set (s5 := step w s4 (Mount "/content/drive")).
  set (s6 := step w s5 (LineMagic ["cd"; "./content"])).
  set (s7 := step w s6 (Sh ["mkdir"; "-p"; "dataset_raw/44k"])).
  set (s8 := step w s7 (Sh ["cp"; "-R";
            "/content/drive/MyDrive/so-vits-svc-fork/dataset/kiritan/";
            "-t"; "dataset_raw/44k/"])).
  exists s8. split; [reflexivity |]. split; [reflexivity |].
  assert (cwd s1 = "/content" ∧ tree s1 = w_tree w) as [H1 Ht1].
  { split; [by rewrite <- H0 | by rewrite <- Ht0]. }
  assert (cwd s2 = "/content" ∧ tree s2 = w_tree w) as [H2 Ht2].
  { split; [by rewrite <- H1 | by rewrite <- Ht1]. }
  assert (cwd s3 = "/content" ∧ tree s3 = w_tree w) as [H3 Ht3].
  { split; [by rewrite <- H2 | by rewrite <- Ht2]. }
  assert (cwd s4 = "/content" ∧ tree s4 = w_tree w) as [H4 Ht4].
  { split; [by rewrite <- H3 | by rewrite <- Ht3]. }
  set (tm := mount "/content/drive" (w_drive w) (w_tree w)).
  assert (cwd s5 = "/content" ∧ tree s5 = tm) as [H5 Ht5].
  { split; [by rewrite <- H4 | unfold tm; by rewrite <- Ht4]. }
  assert (∀ k, (∀ j, k ≠ "drive" +:+ j) →
               tm !! ("/content/" +:+ k) = None) as Hlocal.
  { intros k Hk. unfold tm. rewrite mount_other; [apply Hempty | |].
    - rewrite ancestors_drive, !append_cons. intros H.
      apply elem_of_cons in H as [H|H]; [discriminate H |].
      apply elem_of_cons in H as [H|H]; [| by apply elem_of_nil in H].
      apply (Hk ""). rewrite append_nil_r.
      change "/content/drive" with ("/content/" +:+ "drive") in H.
      rewrite !append_cons, !append_nil in H. by simplify_eq.
    - intros j. change ("/content/drive" +:+ "/") with ("/content/" +:+ "drive/").
      rewrite append_assoc. intros E%String.app_inj.
      apply (Hk ("/" +:+ j)). by rewrite E. }
  assert (is_dir (tree s5) (resolve (cwd s5) "./content") = false) as Hno.
  { rewrite H5, Ht5.
    change (resolve "/content" "./content") with "/content/content".
    unfold is_dir, entry.
    change (Str.normalize "/content/content") with "/content/content".
    rewrite (bool_decide_eq_false_2 ("/content/content" = "")) by done.
    apply bool_decide_eq_false_2.
    change "/content/content" with ("/content/" +:+ "content").
    rewrite Hlocal; [done |]. intros j. rewrite !append_cons. discriminate. }
  assert (s6 = s5) as H6.
  { unfold s6. cbn [step].
    change (String.eqb "cd" "cd") with true. cbn [andb]. by rewrite Hno. }
  assert (cwd s6 = "/content" ∧ tree s6 = tm) as [H6a H6b].
  { by rewrite H6. }
  clearbody s6. clear H6 Hno.
  (* the directory of the dataset is made *)
  destruct (mkdir_p "/content/dataset_raw/44k" tm) as [t1|] eqn:Hmk.
  2:{ apply mkdir_fold_fails in Hmk as (d & k & o & Hd & Hf).
      rewrite ancestors_raw in Hd.
      apply elem_of_cons in Hd as [->|Hd].
      { unfold tm in Hf. by rewrite (mount_keeps _ _ _ _ _ Hroot) in Hf. }
      apply elem_of_cons in Hd as [->|Hd].
      { change "/content/dataset_raw" with ("/content/" +:+ "dataset_raw") in Hf.
        rewrite Hlocal in Hf; [done |]. intros j. rewrite !append_cons.
        discriminate. }
      apply elem_of_cons in Hd as [->|Hd]; [| by apply elem_of_nil in Hd].
      change "/content/dataset_raw/44k"
        with ("/content/" +:+ "dataset_raw/44k") in Hf.
      rewrite Hlocal in Hf; [done |]. intros j. rewrite !append_cons.
      discriminate. }
  assert (tree s7 = t1 ∧ cwd s7 = "/content") as [Ht7 H7].
  { unfold s7. cbn [step with_tree tree cwd].
    rewrite H6a, H6b.
    change (exec (w_saves w) "/content" ["mkdir"; "-p"; "dataset_raw/44k"])
      with (mkdir_p "/content/dataset_raw/44k").
    by rewrite Hmk. }
  clearbody s7.
  assert (∀ k n, w_drive w !! k = Some n →
                 t1 !! ("/content/drive/" +:+ k) = Some n) as Hseen.
  { intros k n Hk. apply (mkdir_p_spec _ _ _ Hmk). unfold tm.
    rewrite mount_drive; [exact Hk |].
    change "/content/drive/" with ("/content/" +:+ "drive/").
    rewrite append_assoc. apply Hempty. }
  assert (∀ rel, t1 !! ("/content/dataset_raw/44k/" +:+ "kiritan" +:+ rel)
                 = None) as Hfree.
  { intros rel. unfold mkdir_p in Hmk.
    rewrite (mkdir_fold_other _ _ _ _ Hmk).
    - change ("/content/dataset_raw/44k/" +:+ "kiritan" +:+ rel)
        with ("/content/" +:+ ("dataset_raw/44k/kiritan" +:+ rel)).
      apply Hlocal. intros j. rewrite !append_cons. discriminate.
    - rewrite ancestors_raw, !append_cons. intros H.
      repeat (apply elem_of_cons in H as [H|H]; [discriminate H |]).
      by apply elem_of_nil in H. }
  destruct (dataset_copy_spec (w_saves w) "kiritan" tm t1)
    as (t2 & Hcp & Hcopy & _);
    [done | done | done | done | exact Hmk | | by intros rel _ |].
  { unfold is_dir, entry.
    change (Str.normalize _)
      with ("/content/drive/" +:+ "MyDrive/so-vits-svc-fork/dataset/kiritan").
    rewrite (Hseen _ _ Hdrive). reflexivity. }
  assert (tree s8 = t2) as Ht8.
  { unfold s8. cbn [step with_tree tree cwd].
    rewrite H7, Ht7.
    change (exec (w_saves w) "/content"
              ["cp"; "-R";
               "/content/drive/MyDrive/so-vits-svc-fork/dataset/kiritan/";
               "-t"; "dataset_raw/44k/"] t1 = Some t2) in Hcp.
    by rewrite Hcp. }
  intros rel n Hn. rewrite Ht8.
  specialize (Hcopy rel n).
  change ("/content/dataset_raw/44k/" +:+ "kiritan" +:+ "/" +:+ rel)
    with ("/content/dataset_raw/44k/kiritan/" +:+ rel) in Hcopy.
  apply Hcopy.
  change ("/content/drive/MyDrive/so-vits-svc-fork/dataset/" +:+ "kiritan"
          +:+ "/" +:+ rel)
    with ("/content/drive/"
          +:+ ("MyDrive/so-vits-svc-fork/dataset/kiritan/" +:+ rel)).
  by apply Hseen.
Qed.

End DriveFacts.

(** ** The further theorems at concrete inputs *)


Lemma every_source_file_reachable_witness :
  1 ≤ 100 ≤ 100 ∧
  (∃ e, Kernel.NAME e = Some (Str.of_Z 100) ∧
        head (Nb.downloads (Kernel.actions e))
        = Some (Str.of_Z 100 +:+ ".wav")) ∧
  (∀ e, Kernel.NAME e = Some (Str.of_Z 100) →
        Kernel.randint 1 100 (hd 0 e) = 100).
Proof.
  assert (1 ≤ 100 ≤ 100) as H by lia.
  split; [exact H |]. exact (every_source_file_reachable 100 H).
Defined.

Lemma branch_selects_the_source_witness :
  Form.plain "v4.1.0" = true ∧
  Kernel.out
    (Kernel.exec_cell (Form.set_param_cell "BRANCH" "v4.1.0" Form.install_cell)
       (Kernel.init []))
  = [ Kernel.Sh ["python"; "-m"; "pip"; "install"; "-U"; "pip"; "wheel"];
      Kernel.LineMagic ["pip"; "install"; "-U"; "ipython"];
      Kernel.LineMagic
        ["pip"; "install"; "-U";
         "git+https://github.com/34j/so-vits-svc-fork.git@" +:+ "v4.1.0"] ].
Proof.
  assert (Form.plain "v4.1.0" = true) as H by reflexivity.
  split; [exact H |].
  exact (proj2 (branch_selects_the_source "v4.1.0" (Kernel.init []) H)).
Defined.

Lemma dataset_name_selects_the_folder_witness :
  Form.plain "speaker_01" = true ∧
  Kernel.out
    (Kernel.exec_cell
       (Form.set_param_cell "DATASET_NAME" "speaker_01" Form.copy_cell)
       (Kernel.init []))
  = [ Kernel.Sh
        ["cp"; "-R";
         "/content/drive/MyDrive/so-vits-svc-fork/dataset/" +:+ "speaker_01"
         +:+ "/";
         "-t"; "dataset_raw/44k/"] ].
Proof.
  assert (Form.plain "speaker_01" = true) as H by reflexivity.
  split; [exact H |].
  exact (proj2 (dataset_name_selects_the_folder "speaker_01"
                  (Kernel.init []) H)).
Defined.

Lemma dataset_name_with_blank_witness :
  Form.plain "my" = true ∧ Form.plain "voice" = true ∧ "voice" ≠ "" ∧
  Kernel.out
    (Kernel.exec_cell
       (Form.set_param_cell "DATASET_NAME" ("my" +:+ " " +:+ "voice")
          Form.copy_cell)
       (Kernel.init []))
  = [ Kernel.Sh
        ["cp"; "-R";
         "/content/drive/MyDrive/so-vits-svc-fork/dataset/" +:+ "my";
         "voice" +:+ "/"; "-t"; "dataset_raw/44k/"] ].
Proof.
  assert (Form.plain "my" = true) as H1 by reflexivity.
  assert (Form.plain "voice" = true) as H2 by reflexivity.
  assert ("voice" ≠ "") as H3 by discriminate.
  split; [exact H1 |]. split; [exact H2 |]. split; [exact H3 |].
  exact (dataset_name_with_blank "my" "voice" (Kernel.init []) H1 H2 H3).
Defined.




Lemma working_directory_stays_witness :
  Shell.w_cwd (Shell.colab 41) = "/content" ∧
  Shell.w_tree (Shell.colab 41) !! "/content/content" ≠ Some Fs.Dir ∧
  Forall (fun s => Shell.cwd s = "/content") (Shell.trace (Shell.colab 41)).
Proof.
  assert (Shell.w_cwd (Shell.colab 41) = "/content") as H1 by reflexivity.
  assert (Shell.w_tree (Shell.colab 41) !! "/content/content" ≠ Some Fs.Dir)
    as H2 by (vm_compute; discriminate).
  split; [exact H1 |]. split; [exact H2 |].
  exact (working_directory_stays (Shell.colab 41) H1 H2).
Defined.


Lemma drive_dataset_reaches_raw_witness :
  Shell.w_cwd (Shell.colab 41) = "/content" ∧
  Shell.w_tree (Shell.colab 41) !! "/content" = Some Fs.Dir ∧
  (∀ k, Shell.w_tree (Shell.colab 41) !! ("/content/" +:+ k) = None) ∧
  Shell.w_drive (Shell.colab 41) !! "MyDrive/so-vits-svc-fork/dataset/kiritan"
  = Some Fs.Dir ∧
  ∃ s,
    Shell.trace (Shell.colab 41) !! 7%nat = Some s ∧
    Shell.tree s !! ("/content/dataset_raw/44k/kiritan/" +:+ "01.wav")
    = Some (Fs.File Fs.Audio "kiritan 01").
Proof.
  assert (Shell.w_cwd (Shell.colab 41) = "/content") as H1 by reflexivity.
  assert (Shell.w_tree (Shell.colab 41) !! "/content" = Some Fs.Dir) as H2
    by (vm_compute; reflexivity).
  assert (∀ k, Shell.w_tree (Shell.colab 41) !! ("/content/" +:+ k) = None)
    as H3.
  { intros k. apply lookup_singleton_ne. rewrite !append_cons. discriminate. }
  assert (Shell.w_drive (Shell.colab 41)
            !! "MyDrive/so-vits-svc-fork/dataset/kiritan" = Some Fs.Dir) as H4
    by (vm_compute; reflexivity).
  split; [exact H1 |]. split; [exact H2 |]. split; [exact H3 |].
  split; [exact H4 |].
  destruct (drive_dataset_reaches_raw (Shell.colab 41) H1 H2 H3 H4)
    as (s & Hs & _ & Hcopy).
  exists s. split; [exact Hs |].
  apply (Hcopy "01.wav"). vm_compute. reflexivity.
Defined.
